(** * XSS Risk Detector: evidence collection and risk scoring

    A shallow embedding of the extension's content script (evidence store,
    static scanner, runtime sink hooks) and of the popup's quick risk
    heuristic, with the properties the design document states about them.

    Conventions of the embedding.
    - A JavaScript string is a [string]: a finite sequence of code units.
      Only length, concatenation, prefix extraction, trimming and ASCII
      case folding are used, so the width of a unit plays no role.
    - A JavaScript number is an exact integer [Z]; the counters and scores
      of a page session stay far inside the range where the host's
      arithmetic is exact (below 2^53 in size), and the statements that
      depend on the text of a number say so.
    - The browser is a parameter: the class [Host] gives the behaviour of
      the functions the script does not define, the page address, the
      clock, the captured call stack and the document. *)

From Stdlib Require Import ZArith List String Ascii Bool Lia Permutation.
From Stdlib Require Import Sorted DecimalString QArith Qround.
Import ListNotations.

#[local] Set Warnings "-register-all".
#[local] Open Scope string_scope.
#[local] Open Scope Z_scope.

(** ** JavaScript values *)

(** The operations that [hookRuntimeSinks] instruments. *)
Inductive sink : Type :=
| Eval
| FunctionCtor
| DocumentWrite
| DocumentWriteln
| SetTimeout
| SetInterval
| InnerHTMLSet
| OuterHTMLSet
| InsertAdjacentHTML.

(** The values: the primitives, object literals and plain objects with the
    properties they hold themselves, and functions. [VFunc name] is a
    function the script did not create (a host built-in or a function of
    the page); [VHook s original] is the closure that [hookRuntimeSinks]
    creates for sink [s], holding the value it saved as the original.
    Wrapper objects of primitives ([new String(...)]) are not among them. *)
Inductive value : Type :=
| VUndefined
| VNull
| VBool (b : bool)
| VNum (n : Z)
| VStr (s : string)
| VObj (props : list (string * value))
| VFunc (name : string)
| VHook (s : sink) (original : value).

(** The value thrown where the engine raises a [TypeError]. *)
Definition TypeError : value := VObj [("name", VStr "TypeError")].

(** The value thrown where the engine raises a [SyntaxError]. *)
Definition SyntaxError : value := VObj [("name", VStr "SyntaxError")].

(** ToBoolean. *)
Definition truthy (v : value) : bool :=
  match v with
  | VUndefined | VNull => false
  | VBool b => b
  | VNum n => negb (n =? 0)
  | VStr s => negb (s =? "")%string
  | VObj _ | VFunc _ | VHook _ _ => true
  end.

(** [typeof v === 'string'] *)
Definition is_string (v : value) : bool :=
  match v with VStr _ => true | _ => false end.

(** A parameter declared with the default [= null]. *)
Definition default_null (v : value) : value :=
  match v with VUndefined => VNull | _ => v end.

(** [a || b] *)
Definition js_or (a b : value) : value := if truthy a then a else b.

(** Read of a property the object holds itself. The names read this way
    ([tagName], [selector], [index], [length]) are not names of members
    that every object inherits. *)
Fixpoint get_prop (k : string) (props : list (string * value)) : value :=
  match props with
  | [] => VUndefined
  | (k', v) :: rest => if (k' =? k)%string then v else get_prop k rest
  end.

(** ** Strings *)

(** [s.substring(a, b)]: both bounds are clamped to the length and swapped
    when out of order. *)
Definition js_substring (s : string) (a b : nat) : string :=
  let n := String.length s in
  let a' := Nat.min a n in
  let b' := Nat.min b n in
  String.substring (Nat.min a' b') (Nat.max a' b' - Nat.min a' b') s.

(** Lower case of a code unit below 256: the letters A-Z and the capital
    letters of the upper half (192-222, the sign at 215 apart). *)
Definition lower_ascii (c : ascii) : ascii :=
  let n := nat_of_ascii c in
  if orb (andb (Nat.leb 65 n) (Nat.leb n 90))
         (andb (andb (Nat.leb 192 n) (Nat.leb n 222)) (negb (Nat.eqb n 215)))
  then ascii_of_nat (n + 32)
  else c.

(** [s.toLowerCase()] *)
Fixpoint toLowerCase (s : string) : string :=
  match s with
  | EmptyString => EmptyString
  | String c r => String (lower_ascii c) (toLowerCase r)
  end.

(** White space and line terminators among the code units below 256, as
    [trim] sees them. *)
Definition is_space (c : ascii) : bool :=
  let n := nat_of_ascii c in
  orb (andb (Nat.leb 9 n) (Nat.leb n 13)) (orb (Nat.eqb n 32) (Nat.eqb n 160)).

Fixpoint trimStart (s : string) : string :=
  match s with
  | EmptyString => EmptyString
  | String c r => if is_space c then trimStart r else s
  end.

Fixpoint trimEnd (s : string) : string :=
  match s with
  | EmptyString => EmptyString
  | String c r =>
      match trimEnd r with
      | EmptyString => if is_space c then EmptyString else String c EmptyString
      | r' => String c r'
      end
  end.

(** [s.trim()] *)
Definition trim (s : string) : string := trimEnd (trimStart s).

(** [s.startsWith(p)], the test behind the [^=] attribute selector. *)
Definition startsWith (p s : string) : bool := String.prefix p s.

(** Decimal rendering of a number: the text the engine gives for an
    integer below 2^53 in size. Beyond that range the numbers of the engine
    are rounded, and from 10^21 on it writes an exponent. *)
Definition number_text (n : Z) : string := NilZero.string_of_int (Z.to_int n).

(** ** Evidence records *)

Module Evidence.
Record t : Type := Build {
    id : Z;
    time : string;
    type : string;
    severity : string;
    location : value;
    snippet : string;
    stack : value
}.
End Evidence.

(** ** The host platform *)

(** An element of the document, with the attributes and the properties the
    scanner reads. Attribute names are as the DOM stores them. *)
Record element : Type := {
  tagName : string;
  attributes : list (string * string);
  href : value;
  textContent : string;
  innerText : string
}.

Inductive outcome (A : Type) : Type :=
| Ok (a : A)
| Thrown (e : value).
Arguments Ok {A} a.
Arguments Thrown {A} e.

Class Host (H : Type) : Type := {
  (** behaviour of a function the script did not create:
      name, [this], arguments *)
  host_apply : string -> value -> list value -> H -> outcome value * H;
  (** [String(f)] for a function value *)
  function_source : value -> string;
  (** the global object, [window] *)
  global_object : H -> value;
  (** [window.location.href] *)
  location_href : H -> string;
  (** [new Date().toISOString()] *)
  date_toISOString : H -> string;
  (** [new Error().stack] *)
  error_stack : H -> value;
  (** [document.readyState] *)
  document_readyState : H -> string;
  (** [document.querySelectorAll('*')], in document order *)
  document_elements : H -> list element
}.

(** ** Page state *)

Record descriptor : Type := { desc_get : value; desc_set : value }.

(** The script's two variables, the rebindable sinks of [window],
    [document] and [Element.prototype], the registered
    [DOMContentLoaded] listeners of the script, and the host. *)
Record page (H : Type) : Type := {
  evidenceList : list Evidence.t;
  evidenceIdCounter : Z;
  window_eval : value;
  window_Function : value;
  document_write : value;
  document_writeln : value;
  window_setTimeout : value;
  window_setInterval : value;
  innerHTML_desc : option descriptor;
  outerHTML_desc : option descriptor;
  proto_insertAdjacentHTML : value;
  pending_scans : nat;
  host : H
}.
Arguments evidenceList {H} _.
Arguments evidenceIdCounter {H} _.
Arguments window_eval {H} _.
Arguments window_Function {H} _.
Arguments document_write {H} _.
Arguments document_writeln {H} _.
Arguments window_setTimeout {H} _.
Arguments window_setInterval {H} _.
Arguments innerHTML_desc {H} _.
Arguments outerHTML_desc {H} _.
Arguments proto_insertAdjacentHTML {H} _.
Arguments pending_scans {H} _.
Arguments host {H} _.

(** A tab: its page, and whether the top-level names of the script
    ([let evidenceList], [let evidenceIdCounter]) are declared in the scope
    the script is loaded into. *)
Record tab (H : Type) : Type := {
  declared : bool;
  tab_page : page H
}.
Arguments declared {H} _.
Arguments tab_page {H} _.

Section ContentScript.
Context {H : Type} `{HostH : Host H}.

(** [String(v)] *)
Definition String_ (v : value) : string :=
  match v with
  | VUndefined => "undefined"
  | VNull => "null"
  | VBool true => "true"
  | VBool false => "false"
  | VNum n => number_text n
  | VStr s => s
  | VObj _ => "[object Object]"
  | VFunc _ | VHook _ _ => function_source v
  end.

(** Computations of the script: state passing with exceptions. *)
Definition M (A : Type) : Type := page H -> outcome A * page H.

Definition ret {A} (a : A) : M A := fun st => (Ok a, st).

Definition throw {A} (e : value) : M A := fun st => (Thrown e, st).

Definition bind {A B} (m : M A) (k : A -> M B) : M B :=
  fun st =>
    match m st with
    | (Ok a, st') => k a st'
    | (Thrown e, st') => (Thrown e, st')
    end.

Notation "x <- m ;; k" := (bind m (fun x => k))
  (at level 61, m at next level, right associativity).
Notation "m ;;; k" := (bind m (fun _ => k))
  (at level 61, right associativity).

Definition set_store (l : list Evidence.t) (c : Z) (st : page H) : page H :=
  {| evidenceList := l;
     evidenceIdCounter := c;
     window_eval := window_eval st;
     window_Function := window_Function st;
     document_write := document_write st;
     document_writeln := document_writeln st;
     window_setTimeout := window_setTimeout st;
     window_setInterval := window_setInterval st;
     innerHTML_desc := innerHTML_desc st;
     outerHTML_desc := outerHTML_desc st;
     proto_insertAdjacentHTML := proto_insertAdjacentHTML st;
     pending_scans := pending_scans st;
     host := host st |}.

Definition set_host (h : H) (st : page H) : page H :=
  {| evidenceList := evidenceList st;
     evidenceIdCounter := evidenceIdCounter st;
     window_eval := window_eval st;
     window_Function := window_Function st;
     document_write := document_write st;
     document_writeln := document_writeln st;
     window_setTimeout := window_setTimeout st;
     window_setInterval := window_setInterval st;
     innerHTML_desc := innerHTML_desc st;
     outerHTML_desc := outerHTML_desc st;
     proto_insertAdjacentHTML := proto_insertAdjacentHTML st;
     pending_scans := pending_scans st;
     host := h |}.

(** ** addEvidence *)

(** [function addEvidence(type, severity, snippet, location, stack = null)].
    An omitted argument is [VUndefined]. The fields are evaluated in the
    order of the literal: the counter is incremented before the snippet
    is read, so a snippet that is truthy and has no [substring] method
    throws after the id has been consumed. The script itself passes strings
    only. Among the other values, a number, a boolean, a function and an
    object without a [substring] member of its own have no such method; an
    object that brings its own [substring] member is not covered here (the
    call would store whatever that member returns), and the statements
    about snippets leave such arguments out. *)
Definition addEvidence (type severity : string) (snippet location stack : value)
  : M Evidence.t :=
  fun st =>
    let stack := default_null stack in
    let id := evidenceIdCounter st + 1 in
    let st := set_store (evidenceList st) id st in
    let time := date_toISOString (host st) in
    let location :=
      js_or location
        (VObj [("url", VStr (location_href (host st))); ("selector", VNull)]) in
    if truthy snippet then
      match snippet with
      | VStr s =>
          let evidence :=
            Evidence.Build id time type severity location
              (js_substring s 0 200) stack in
          (Ok evidence, set_store (evidenceList st ++ [evidence]) id st)
      | _ => (Thrown TypeError, st)
      end
    else
      let evidence :=
        Evidence.Build id time type severity location "" stack in
      (Ok evidence, set_store (evidenceList st ++ [evidence]) id st).

(** ** collectStaticSignals *)

Definition window_location_href : M string :=
  fun st => (Ok (location_href (host st)), st).

Definition new_Error_stack : M value :=
  fun st => (Ok (error_stack (host st)), st).

Definition querySelectorAll_star : M (list element) :=
  fun st => (Ok (document_elements (host st)), st).

(** [l.forEach((x, index) => f(x, index))]; an exception leaves the loop. *)
Fixpoint forEach_from {A} (f : A -> nat -> M unit) (l : list A) (index : nat)
  : M unit :=
  match l with
  | [] => ret tt
  | x :: rest => f x index ;;; forEach_from f rest (S index)
  end.

Definition forEach {A} (f : A -> nat -> M unit) (l : list A) : M unit :=
  forEach_from f l 0.

Definition inlineEventAttrs : list string :=
  [ "onerror"; "onclick"; "onload"; "onmouseover"; "onmouseout";
    "onmouseenter"; "onmouseleave"; "onfocus"; "onblur"; "onchange";
    "onsubmit"; "onkeydown"; "onkeyup"; "onkeypress" ].

Definition hasAttribute (elem : element) (attr : string) : bool :=
  existsb (fun p => (fst p =? attr)%string) (attributes elem).

(** [None] is the [null] that [getAttribute] gives for a missing attribute. *)
Definition getAttribute (elem : element) (attr : string) : option string :=
  option_map snd (find (fun p => (fst p =? attr)%string) (attributes elem)).

(** A [getAttribute] result inside a template literal. *)
Definition template_hole (v : option string) : string :=
  match v with Some s => s | None => "null" end.

Definition dquote : string := String "034"%char "".

(** The template literal [`${attr}="${value}"`]. *)
Definition attr_snippet (attr : string) (value : option string) : string :=
  attr ++ "=" ++ dquote ++ template_hole value ++ dquote.

(** The location of an inline-event-handler record. *)
Definition handler_location (url : string) (elem : element) (attr : string)
  (index : nat) : value :=
  VObj [ ("url", VStr url);
         ("selector", VStr (toLowerCase (tagName elem) ++ "[" ++ attr ++ "]"));
         ("index", VNum (Z.of_nat index)) ].

(** The body of the inner loop, for element [elem] at position [index]. *)
Definition collectInlineEventHandler (elem : element) (index : nat)
  (attr : string) (_ : nat) : M unit :=
  if hasAttribute elem attr then
    let value := getAttribute elem attr in
    url <- window_location_href ;;
    addEvidence "inline-event-handler" "medium"
      (VStr (attr_snippet attr value))
      (handler_location url elem attr index) VUndefined ;;;
    ret tt
  else ret tt.

(** 1. inline event handlers *)
Definition collectInlineEventHandlers : M unit :=
  allElements <- querySelectorAll_star ;;
  forEach (fun elem index =>
    forEach (collectInlineEventHandler elem index) inlineEventAttrs) allElements.

Definition attr_startsWith (elem : element) (attr p : string) : bool :=
  match getAttribute elem attr with
  | Some v => startsWith p v
  | None => false
  end.

(** The selector
    [a[href^="javascript:"], iframe[src^="javascript:"], img[src^="javascript:"]]. *)
Definition matches_jsProtocol (elem : element) : bool :=
  let tag := toLowerCase (tagName elem) in
  orb (andb (tag =? "a")%string (attr_startsWith elem "href" "javascript:"))
    (orb (andb (tag =? "iframe")%string (attr_startsWith elem "src" "javascript:"))
         (andb (tag =? "img")%string (attr_startsWith elem "src" "javascript:"))).

(** The location of a javascript-protocol record. *)
Definition jsProtocol_location (url : string) (elem : element) (attr : string)
  (index : nat) : value :=
  VObj [ ("url", VStr url);
         ("selector",
          VStr (toLowerCase (tagName elem) ++ "[" ++ attr ++ "^=" ++ dquote
                ++ "javascript:" ++ dquote ++ "]"));
         ("index", VNum (Z.of_nat index)) ].

(** The body of the second loop. *)
Definition collectJsProtocolElement (elem : element) (index : nat) : M unit :=
  let attr := if truthy (href elem) then "href" else "src" in
  let value := getAttribute elem attr in
  url <- window_location_href ;;
  addEvidence "javascript-protocol" "high"
    (VStr (attr_snippet attr value))
    (jsProtocol_location url elem attr index) VUndefined ;;;
  ret tt.

(** 2. javascript: URLs *)
Definition collectJsProtocol : M unit :=
  allElements <- querySelectorAll_star ;;
  let jsProtocolElements := filter matches_jsProtocol allElements in
  forEach collectJsProtocolElement jsProtocolElements.

(** The selector [script:not([src])]. *)
Definition matches_inlineScript (elem : element) : bool :=
  andb (toLowerCase (tagName elem) =? "script")%string
       (negb (hasAttribute elem "src")).

(** [script.textContent || script.innerText] *)
Definition script_content (script : element) : string :=
  if (textContent script =? "")%string then innerText script
  else textContent script.

(** The location of an inline-script record. *)
Definition inlineScript_location (url : string) (index : nat) (content : string)
  : value :=
  VObj [ ("url", VStr url);
         ("selector", VStr "script:not([src])");
         ("index", VNum (Z.of_nat index));
         ("length", VNum (Z.of_nat (String.length content))) ].

(** The body of the third loop, for one script element. *)
Definition collectInlineScript (script : element) (index : nat) : M unit :=
  let content := script_content script in
  if andb (negb (content =? "")%string)
          (Nat.ltb 0 (String.length (trim content))) then
    url <- window_location_href ;;
    addEvidence "inline-script" "low" (VStr content)
      (inlineScript_location url index content) VUndefined ;;;
    ret tt
  else ret tt.

(** 3. inline script blocks *)
Definition collectInlineScripts : M unit :=
  allElements <- querySelectorAll_star ;;
  let inlineScripts := filter matches_inlineScript allElements in
  forEach collectInlineScript inlineScripts.

(** The three loops in turn; the closing [console.log] leaves the page as
    it is. *)
Definition collectStaticSignals : M unit :=
  collectInlineEventHandlers ;;;
  collectJsProtocol ;;;
  collectInlineScripts.

(** ** hookRuntimeSinks *)

(** The n-th formal parameter of a call. *)
Definition arg (n : nat) (arguments : list value) : value :=
  nth n arguments VUndefined.

(** [typeof code === 'string' ? code : String(code)] *)
Definition code_text (code : value) : value :=
  if is_string code then code else VStr (String_ code).

(** The [this] binding of a function of the script for a call that supplies
    [this]. The script is not in strict mode: where the call supplies
    [undefined] or [null] the function is bound to the global object. An
    object or a function is bound as it is. A primitive value would be
    bound to its wrapper object; wrapper objects are not among the values
    of the embedding, the primitive is left in its place, and the
    statements about the receiver of the original leave calls with a
    primitive [this] out. *)
Definition bound_this (h : H) (this : value) : value :=
  match this with
  | VUndefined | VNull => global_object h
  | _ => this
  end.

(** [this.tagName ? this.tagName.toLowerCase() : 'unknown'], where [this]
    is the binding the wrapper body sees, see [bound_this]; on [undefined]
    or [null], which a wrapper never sees, the property read throws. *)
Definition this_selector (this : value) : M string :=
  match this with
  | VUndefined | VNull => throw TypeError
  | VObj props =>
      let t := get_prop "tagName" props in
      if truthy t then
        match t with
        | VStr name => ret (toLowerCase name)
        | _ => throw TypeError
        end
      else ret "unknown"
  | _ => ret "unknown"
  end.

(** What each wrapper does before it delegates. *)
Definition hook_record (s : sink) (this : value) (arguments : list value)
  : M unit :=
  match s with
  | Eval =>
      let code := arg 0 arguments in
      url <- window_location_href ;;
      stack <- new_Error_stack ;;
      addEvidence "eval-call" "high" (code_text code)
        (VObj [("url", VStr url)]) stack ;;;
      ret tt
  | FunctionCtor =>
      let code := last arguments (VStr "") in
      url <- window_location_href ;;
      stack <- new_Error_stack ;;
      addEvidence "function-constructor" "high" (VStr (String_ code))
        (VObj [("url", VStr url)]) stack ;;;
      ret tt
  | DocumentWrite =>
      let content := arg 0 arguments in
      url <- window_location_href ;;
      stack <- new_Error_stack ;;
      addEvidence "document-write" "medium" (VStr (String_ content))
        (VObj [("url", VStr url)]) stack ;;;
      ret tt
  | DocumentWriteln =>
      let content := arg 0 arguments in
      url <- window_location_href ;;
      stack <- new_Error_stack ;;
      addEvidence "document-writeln" "medium" (VStr (String_ content))
        (VObj [("url", VStr url)]) stack ;;;
      ret tt
  | SetTimeout =>
      let code := arg 0 arguments in
      if is_string code then
        url <- window_location_href ;;
        stack <- new_Error_stack ;;
        addEvidence "settimeout-string" "high" code
          (VObj [("url", VStr url)]) stack ;;;
        ret tt
      else ret tt
  | SetInterval =>
      let code := arg 0 arguments in
      if is_string code then
        url <- window_location_href ;;
        stack <- new_Error_stack ;;
        addEvidence "setinterval-string" "high" code
          (VObj [("url", VStr url)]) stack ;;;
        ret tt
      else ret tt
  | InnerHTMLSet =>
      let value := arg 0 arguments in
      url <- window_location_href ;;
      selector <- this_selector this ;;
      stack <- new_Error_stack ;;
      addEvidence "innerhtml-set" "medium" (VStr (String_ value))
        (VObj [("url", VStr url); ("selector", VStr selector)]) stack ;;;
      ret tt
  | OuterHTMLSet =>
      let value := arg 0 arguments in
      url <- window_location_href ;;
      selector <- this_selector this ;;
      stack <- new_Error_stack ;;
      addEvidence "outerhtml-set" "medium" (VStr (String_ value))
        (VObj [("url", VStr url); ("selector", VStr selector)]) stack ;;;
      ret tt
  | InsertAdjacentHTML =>
      let position := arg 0 arguments in
      let text := arg 1 arguments in
      url <- window_location_href ;;
      selector <- this_selector this ;;
      stack <- new_Error_stack ;;
      addEvidence "insertadjacenthtml" "medium" (VStr (String_ text))
        (VObj [ ("url", VStr url); ("selector", VStr selector);
                ("position", position) ]) stack ;;;
      ret tt
  end.

(** The arguments a wrapper hands to its original: [arguments] through
    [apply], the single [value] through [set.call(this, value)]. *)
Definition forwarded (s : sink) (arguments : list value) : list value :=
  match s with
  | InnerHTMLSet | OuterHTMLSet => [arg 0 arguments]
  | _ => arguments
  end.

(** Calling a value as a function, with the [this] the call supplies and
    the arguments. A host function receives [this] as supplied. A wrapper
    is a function of the script: its body, and the [apply] or [call] in it,
    see the binding [bound_this] gives. *)
Fixpoint call (f this : value) (arguments : list value) {struct f} : M value :=
  match f with
  | VFunc name =>
      fun st =>
        let (r, h) := host_apply name this arguments (host st) in
        (r, set_host h st)
  | VHook s original =>
      fun st =>
        let this := bound_this (host st) this in
        (hook_record s this arguments ;;;
         call original this (forwarded s arguments)) st
  | _ => throw TypeError
  end.

(** [if (desc && desc.set) Object.defineProperty(elementProto, name,
    { set: function(value) {...}, get: desc.get })] *)
Definition hook_setter (s : sink) (originalDesc : option descriptor)
  : option descriptor :=
  match originalDesc with
  | Some d =>
      if truthy (desc_set d) then
        Some {| desc_get := desc_get d; desc_set := VHook s (desc_set d) |}
      else originalDesc
  | None => None
  end.

Definition hookRuntimeSinks : M unit :=
  fun st =>
    let originalEval := window_eval st in
    let originalFunction := window_Function st in
    let originalDocumentWrite := document_write st in
    let originalDocumentWriteln := document_writeln st in
    let originalSetTimeout := window_setTimeout st in
    let originalSetInterval := window_setInterval st in
    let originalInnerHTMLDesc := innerHTML_desc st in
    let originalOuterHTMLDesc := outerHTML_desc st in
    let originalInsertAdjacentHTML := proto_insertAdjacentHTML st in
    (Ok tt,
     {| evidenceList := evidenceList st;
        evidenceIdCounter := evidenceIdCounter st;
        window_eval := VHook Eval originalEval;
        window_Function := VHook FunctionCtor originalFunction;
        document_write := VHook DocumentWrite originalDocumentWrite;
        document_writeln := VHook DocumentWriteln originalDocumentWriteln;
        window_setTimeout := VHook SetTimeout originalSetTimeout;
        window_setInterval := VHook SetInterval originalSetInterval;
        innerHTML_desc := hook_setter InnerHTMLSet originalInnerHTMLDesc;
        outerHTML_desc := hook_setter OuterHTMLSet originalOuterHTMLDesc;
        proto_insertAdjacentHTML :=
          VHook InsertAdjacentHTML originalInsertAdjacentHTML;
        pending_scans := pending_scans st;
        host := host st |}).

(** ** initialize *)

(** [document.addEventListener('DOMContentLoaded', collectStaticSignals)] *)
Definition addEventListener_DOMContentLoaded : M unit :=
  fun st =>
    (Ok tt,
     {| evidenceList := evidenceList st;
        evidenceIdCounter := evidenceIdCounter st;
        window_eval := window_eval st;
        window_Function := window_Function st;
        document_write := document_write st;
        document_writeln := document_writeln st;
        window_setTimeout := window_setTimeout st;
        window_setInterval := window_setInterval st;
        innerHTML_desc := innerHTML_desc st;
        outerHTML_desc := outerHTML_desc st;
        proto_insertAdjacentHTML := proto_insertAdjacentHTML st;
        pending_scans := S (pending_scans st);
        host := host st |}).

Definition initialize : M unit :=
  fun st =>
    ((if (document_readyState (host st) =? "loading")%string
      then addEventListener_DOMContentLoaded
      else collectStaticSignals) ;;;
     hookRuntimeSinks) st.

(** The statements of the script from top to bottom, in a page where its
    names are not declared yet: the two [let] declarations, then
    [initialize()]. [env] is the page before the script runs. The message
    listener registered in between only reads the store, see
    [collectEvidence]. *)
Definition content_script (env : page H) : outcome unit * page H :=
  initialize (set_store [] 0 env).

(** Loading the script file into a tab, as the popup does with
    [chrome.scripting.executeScript({ files: ['src/content.js'] })] each
    time it loads the evidence. The declarations of a script are checked
    before any of its statements runs: where [evidenceList] is declared
    already, the load stops with a [SyntaxError] and the page is left as it
    is; [initialize()] at the end of the file is not reached. *)
Definition executeScript (t : tab H) : outcome unit * tab H :=
  if declared t then (Thrown SyntaxError, t)
  else
    let (r, st) := content_script (tab_page t) in
    (r, {| declared := true; tab_page := st |}).

(** The answer to a [collectEvidence] message: the store, the page
    address and the time of the answer. *)
Definition collectEvidence (st : page H) : list Evidence.t * string * string :=
  (evidenceList st, location_href (host st), date_toISOString (host st)).

(** ** A page session *)

(** The function the platform invokes for a sink at this moment. *)
Definition installed (s : sink) (st : page H) : value :=
  match s with
  | Eval => window_eval st
  | FunctionCtor => window_Function st
  | DocumentWrite => document_write st
  | DocumentWriteln => document_writeln st
  | SetTimeout => window_setTimeout st
  | SetInterval => window_setInterval st
  | InnerHTMLSet =>
      match innerHTML_desc st with Some d => desc_set d | None => VUndefined end
  | OuterHTMLSet =>
      match outerHTML_desc st with Some d => desc_set d | None => VUndefined end
  | InsertAdjacentHTML => proto_insertAdjacentHTML st
  end.

Fixpoint repeatM (n : nat) (m : M unit) : M unit :=
  match n with
  | O => ret tt
  | S k => m ;;; repeatM k m
  end.

(** What can happen on the page after the script has started: the document
    becomes ready, the page invokes what is installed for a sink or applies
    a function value it holds (a saved wrapper, say), [addEvidence] is
    called, the host changes. The script runs the installation step at
    start-up only, see [executeScript]; [Install] stands for a further run,
    which the statements about the store allow for although no path of the
    script leads to it. *)
Inductive event : Type :=
| DOMContentLoaded
| Invoke (s : sink) (this : value) (arguments : list value)
| Apply (f this : value) (arguments : list value)
| Install
| AddEvidence (type severity : string) (snippet location stack : value)
| HostChange (h : H).

Definition step (e : event) (st : page H) : page H :=
  match e with
  | DOMContentLoaded => snd (repeatM (pending_scans st) collectStaticSignals st)
  | Invoke s this arguments => snd (call (installed s st) this arguments st)
  | Apply f this arguments => snd (call f this arguments st)
  | Install => snd (hookRuntimeSinks st)
  | AddEvidence type severity snippet location stack =>
      snd (addEvidence type severity snippet location stack st)
  | HostChange h => set_host h st
  end.

Definition run (events : list event) (st : page H) : page H :=
  fold_left (fun st e => step e st) events st.

(** The session that starts by loading the script into [env]. *)
Definition session (env : page H) (events : list event) : page H :=
  run events (snd (content_script env)).

End ContentScript.

Arguments M H A : clear implicits.

(** ** Popup: calculateRiskLevel *)

(** The names of the members every object inherits from
    [Object.prototype]. *)
Definition Object_prototype_names : list string :=
  [ "constructor"; "__defineGetter__"; "__defineSetter__"; "hasOwnProperty";
    "__lookupGetter__"; "__lookupSetter__"; "isPrototypeOf";
    "propertyIsEnumerable"; "toString"; "valueOf"; "__proto__";
    "toLocaleString" ].

(** What an object literal shows under a name it does not hold itself: the
    inherited member, which is a function, or the prototype object under
    [__proto__]; [undefined] under any other name. *)
Definition inherited_member (k : string) : value :=
  if (k =? "__proto__")%string then VObj []
  else if existsb (String.eqb k) Object_prototype_names
  then VFunc ("Object.prototype." ++ k)
  else VUndefined.

(** [o[k]] on an object literal whose own properties are [own]. *)
Definition member (k : string) (own : list (string * value)) : value :=
  if existsb (fun p => (fst p =? k)%string) own then get_prop k own
  else inherited_member k.

(** [const severityWeights = { high: 10, medium: 5, low: 2 }] *)
Definition severityWeights : list (string * value) :=
  [("high", VNum 10); ("medium", VNum 5); ("low", VNum 2)].

(** The result of [calculateRiskLevel]. The score is a number unless an
    inherited member has been added to it, which makes it a text. *)
Record risk : Type := { level : string; score : value }.

Section PopupRisk.
Context {H : Type} `{HostH : Host H}.

(** [a + b] for the operands that occur in the popup, numbers, texts,
    functions and object literals: two numbers add, and with any other
    operand the texts of the two are concatenated. *)
Definition js_plus (a b : value) : value :=
  match a, b with
  | VNum x, VNum y => VNum (x + y)
  | _, _ => VStr (String_ a ++ String_ b)
  end.

(** [score >= n]. A score that is a text holds the text of an inherited
    member (the source of a function, or [[object Object]]); it is not a
    numeric literal and compares as NaN, so the test fails. *)
Definition at_least (score : value) (n : Z) : bool :=
  match score with
  | VNum x => n <=? x
  | _ => false
  end.

(** [evidence] is [None] when the argument is [null] or [undefined]. *)
Definition calculateRiskLevel (evidence : option (list Evidence.t)) : risk :=
  match evidence with
  | None | Some [] => {| level := "low"; score := VNum 0 |}
  | Some items =>
      let score :=
        fold_left
          (fun score item =>
             js_plus score
               (js_or (member (Evidence.severity item) severityWeights) (VNum 0)))
          items (VNum 0) in
      let level :=
        if at_least score 50 then "high"
        else if at_least score 20 then "medium"
        else "low" in
      {| level := level; score := score |}
  end.

End PopupRisk.

(** ** Popup: the rest of the script *)

(** Dates come from the browser. *)
Class DateHost : Type := {
  (** the time value of [new Date(s)]; [None] is NaN, an invalid date *)
  Date_value : string -> option Z;
  (** [d.toLocaleTimeString()] for the date of that time value *)
  toLocaleTimeString : option Z -> string
}.

(** Upper case of a code unit below 256: the letters a-z and the small
    letters of the upper half (224-254, the sign at 247 apart). The three
    units whose capital is not a single unit below 256 (181, 223, 255) are
    left as they are. *)
Definition upper_ascii (c : ascii) : ascii :=
  let n := nat_of_ascii c in
  if orb (andb (Nat.leb 97 n) (Nat.leb n 122))
         (andb (andb (Nat.leb 224 n) (Nat.leb n 254)) (negb (Nat.eqb n 247)))
  then ascii_of_nat (n - 32)
  else c.

(** [s.toUpperCase()] *)
Fixpoint toUpperCase (s : string) : string :=
  match s with
  | EmptyString => EmptyString
  | String c r => String (upper_ascii c) (toUpperCase r)
  end.

(** The badge element and its text. *)
Record badge : Type := { badge_className : string; riskLevel_textContent : string }.

Definition updateRiskBadge (level : string) : badge :=
  {| badge_className := "risk-badge risk-" ++ level;
     riskLevel_textContent := toUpperCase level |}.

(** [severityOrder[k]] for [{ high: 3, medium: 2, low: 1 }]; [None] is
    [undefined], or an inherited member, which the subtraction of the
    comparator turns into NaN alike. *)
Definition severityOrder (k : string) : option Z :=
  if (k =? "high")%string then Some 3
  else if (k =? "medium")%string then Some 2
  else if (k =? "low")%string then Some 1
  else None.

(** [a - b] on numbers, where [None] is NaN (or an [undefined] operand). *)
Definition js_minus (a b : option Z) : option Z :=
  match a, b with
  | Some x, Some y => Some (x - y)
  | _, _ => None
  end.

(** Does the comparator put its first argument after the second? A NaN
    result counts as 0. *)
Definition comes_after (v : option Z) : bool :=
  match v with
  | Some z => 0 <? z
  | None => false
  end.

Fixpoint sort_insert {A} (comparefn : A -> A -> option Z) (x : A)
  (sorted : list A) : list A :=
  match sorted with
  | [] => [x]
  | y :: rest =>
      if comes_after (comparefn x y) then y :: sort_insert comparefn x rest
      else x :: y :: rest
  end.

(** [l.sort(comparefn)]: the sort is stable, so for a consistent
    comparator the result is the one computed here, where an item is placed
    before the items it does not come after. For an inconsistent comparator
    the language leaves the order open. *)
Fixpoint js_sort {A} (comparefn : A -> A -> option Z) (l : list A) : list A :=
  match l with
  | [] => []
  | x :: rest => sort_insert comparefn x (js_sort comparefn rest)
  end.

(** One evidence card: the class names and the texts of its parts. *)
Record card : Type := {
  card_className : string;
  type_textContent : string;
  severity_className : string;
  severity_textContent : string;
  time_textContent : string;
  snippet_textContent : string;
  location_textContent : string
}.

(** What the evidence container holds: markup assigned to [innerHTML], or
    the cards appended to it. *)
Inductive container : Type :=
| InnerHTML (markup : string)
| Children (cards : list card).

Section PopupView.
Context {H : Type} `{HostH : Host H} `{DateH : DateHost}.

(** [formatTime(isoString)]; for a string the [try] block does not throw. *)
Definition formatTime (isoString : string) : string :=
  toLocaleTimeString (Date_value isoString).

(** [item.location && item.location.selector] *)
Definition location_selector (location : value) : value :=
  if truthy location then
    match location with
    | VObj props => get_prop "selector" props
    | _ => VUndefined
    end
  else location.

(** The card [renderEvidence] builds for one item. *)
Definition renderCard (item : Evidence.t) : card :=
  {| card_className := "evidence-card severity-" ++ Evidence.severity item;
     type_textContent := Evidence.type item;
     severity_className :=
       "evidence-severity severity-badge-" ++ Evidence.severity item;
     severity_textContent := Evidence.severity item;
     time_textContent := formatTime (Evidence.time item);
     snippet_textContent :=
       if (Evidence.snippet item =? "")%string then "(no snippet)"
       else Evidence.snippet item;
     location_textContent :=
       if truthy (location_selector (Evidence.location item))
       then "Location: " ++ String_ (location_selector (Evidence.location item))
       else "Location: page" |}.

Definition no_evidence_markup : string :=
  "<p class=" ++ dquote ++ "no-evidence" ++ dquote
  ++ ">No evidence found. The page appears safe or the content script is not injected yet.</p>".

(** [renderEvidence(evidence)]: the new content of the container.
    [None] is a [null] or [undefined] argument. *)
Definition renderEvidence (evidence : option (list Evidence.t)) : container :=
  match evidence with
  | None | Some [] => InnerHTML no_evidence_markup
  | Some items => Children (map renderCard items)
  end.

(** The list [filterAndSortEvidence] hands to [renderEvidence], for the
    values of the three controls. *)
Definition filterAndSortEvidence_list (currentEvidence : list Evidence.t)
  (typeFilter severityFilter sortBy : string) : list Evidence.t :=
  let filtered := currentEvidence in
  let filtered :=
    if (typeFilter =? "all")%string then filtered
    else filter (fun e => (Evidence.type e =? typeFilter)%string) filtered in
  let filtered :=
    if (severityFilter =? "all")%string then filtered
    else filter (fun e => (Evidence.severity e =? severityFilter)%string) filtered in
  if (sortBy =? "time-desc")%string then
    js_sort (fun a b => js_minus (Date_value (Evidence.time b))
                          (Date_value (Evidence.time a))) filtered
  else if (sortBy =? "time-asc")%string then
    js_sort (fun a b => js_minus (Date_value (Evidence.time a))
                          (Date_value (Evidence.time b))) filtered
  else if (sortBy =? "severity-desc")%string then
    js_sort (fun a b => js_minus (severityOrder (Evidence.severity b))
                          (severityOrder (Evidence.severity a))) filtered
  else if (sortBy =? "severity-asc")%string then
    js_sort (fun a b => js_minus (severityOrder (Evidence.severity a))
                          (severityOrder (Evidence.severity b))) filtered
  else filtered.

Definition filterAndSortEvidence (currentEvidence : list Evidence.t)
  (typeFilter severityFilter sortBy : string) : container :=
  renderEvidence
    (Some (filterAndSortEvidence_list currentEvidence typeFilter severityFilter
             sortBy)).

(** The popup: its two variables and the parts of the page it writes. *)
Record popup : Type := {
  currentEvidence : list Evidence.t;
  currentUrl : string;
  evidenceCount_textContent : string;
  riskBadge : badge;
  evidenceContainer : container;
  typeFilter_value : string;
  severityFilter_value : string;
  sortBy_value : string
}.

Definition collect_error_markup : string :=
  "<p class=" ++ dquote ++ "error" ++ dquote
  ++ ">Failed to collect evidence. Please refresh the page and try again.</p>".

(** The callback [loadEvidence] passes to [chrome.tabs.sendMessage].
    [lastError] tells whether [chrome.runtime.lastError] is set; [response]
    is [None] when there is no response, and [Some None] when the response
    has no [evidence]. *)
Definition onCollectEvidence (lastError : bool)
  (response : option (option (list Evidence.t))) (p : popup) : popup :=
  if lastError then
    {| currentEvidence := currentEvidence p;
       currentUrl := currentUrl p;
       evidenceCount_textContent := evidenceCount_textContent p;
       riskBadge := riskBadge p;
       evidenceContainer := InnerHTML collect_error_markup;
       typeFilter_value := typeFilter_value p;
       severityFilter_value := severityFilter_value p;
       sortBy_value := sortBy_value p |}
  else
    match response with
    | Some (Some evidence) =>
        let risk := calculateRiskLevel (H:=H) (Some evidence) in
        {| currentEvidence := evidence;
           currentUrl := currentUrl p;
           evidenceCount_textContent :=
             number_text (Z.of_nat (List.length evidence));
           riskBadge := updateRiskBadge (level risk);
           evidenceContainer :=
             filterAndSortEvidence evidence (typeFilter_value p)
               (severityFilter_value p) (sortBy_value p);
           typeFilter_value := typeFilter_value p;
           severityFilter_value := severityFilter_value p;
           sortBy_value := sortBy_value p |}
    | _ => p
    end.

End PopupView.

(** ** Popup: exportReport *)

(** [o[k] = v] on an object literal, for a value that is a number or a
    text: an existing key keeps its place, a new key goes last. Under the
    name [__proto__] the assignment goes to the inherited setter, which
    ignores such a value: nothing is stored. *)
Fixpoint put (k : string) (v : value) (o : list (string * value))
  : list (string * value) :=
  match o with
  | [] => [(k, v)]
  | (k', v') :: rest =>
      if (k' =? k)%string then (k, v) :: rest else (k', v') :: put k v rest
  end.

Definition obj_set (k : string) (v : value) (o : list (string * value))
  : list (string * value) :=
  if (k =? "__proto__")%string then o else put k v o.

Record report_metadata : Type := {
  metadata_url : string;
  metadata_timestamp : string;
  evidenceCount : Z;
  riskLevel : string;
  riskScore : value
}.

Record report_summary : Type := {
  severityCounts_high : Z;
  severityCounts_medium : Z;
  severityCounts_low : Z;
  typeCounts : list (string * value)
}.

Record export_report : Type := {
  report_metadata_ : report_metadata;
  report_evidence : list Evidence.t;
  report_summary_ : report_summary
}.

(** [currentEvidence.filter(e => e.severity === k).length] *)
Definition count_severity (k : string) (currentEvidence : list Evidence.t) : Z :=
  Z.of_nat
    (List.length
       (filter (fun e => (Evidence.severity e =? k)%string) currentEvidence)).

Section PopupExport.
Context {H : Type} `{HostH : Host H}.

(** The [metadata] object of [exportReport] and [analyzeWithService]. *)
Definition build_metadata (currentUrl timestamp : string)
  (currentEvidence : list Evidence.t) : report_metadata :=
  let risk := calculateRiskLevel (H:=H) (Some currentEvidence) in
  {| metadata_url := currentUrl;
     metadata_timestamp := timestamp;
     evidenceCount := Z.of_nat (List.length currentEvidence);
     riskLevel := level risk;
     riskScore := score risk |}.

(** The loop that counts by type:
    [typeCounts[e.type] = (typeCounts[e.type] || 0) + 1]. *)
Definition count_types (currentEvidence : list Evidence.t)
  : list (string * value) :=
  fold_left
    (fun typeCounts e =>
       obj_set (Evidence.type e)
         (js_plus (H:=H) (js_or (member (Evidence.type e) typeCounts) (VNum 0))
            (VNum 1))
         typeCounts)
    currentEvidence [].

(** The report object [exportReport] serializes; [timestamp] is the time of
    the export. *)
Definition exportReport_report (currentUrl timestamp : string)
  (currentEvidence : list Evidence.t) : export_report :=
  {| report_metadata_ := build_metadata currentUrl timestamp currentEvidence;
     report_evidence := currentEvidence;
     report_summary_ :=
       {| severityCounts_high := count_severity "high" currentEvidence;
          severityCounts_medium := count_severity "medium" currentEvidence;
          severityCounts_low := count_severity "low" currentEvidence;
          typeCounts := count_types currentEvidence |} |}.

End PopupExport.

(** [s.replace(/[:.]/g, '-')] *)
Fixpoint replace_colon_dot (s : string) : string :=
  match s with
  | EmptyString => EmptyString
  | String c r =>
      String (if orb (Ascii.eqb c ":"%char) (Ascii.eqb c "."%char)
              then "-"%char else c)
             (replace_colon_dot r)
  end.

(** The file name of the export, from the time of the download. *)
Definition export_filename (iso : string) : string :=
  "xss-report-" ++ replace_colon_dot iso ++ ".json".

(** ** Service: the scoring engine *)

Module Service.

(** Modelled from the spec: the five verdict labels of the scoring engine
    (service/app.py is not among the sources). *)
Inductive verdict : Type := Safe | LowRisk | MediumRisk | HighRisk | Critical.

(** Modelled from the spec: a record of the input reduced to what the
    report of the scoring engine shows, type, severity and snippet
    (service/app.py is not among the sources). *)
Record supporting : Type := {
  s_type : string;
  s_severity : string;
  s_snippet : string
}.

(** Modelled from the spec: the Aggregate Report of the scoring engine
    (service/app.py is not among the sources). *)
Record report : Type := {
  risk_score : Z;
  report_verdict : verdict;
  summary : string;
  explanation : list string;
  recommendations : list string;
  supporting_evidence : list supporting
}.

(** Modelled from the spec: the tables of the scoring engine that the
    design document leaves open (service/app.py is not among the sources):
    the multiplier of each evidence type, the explanation rules (a pattern, and the line for the
    number of records that show it), the recommendation rules (a pattern and
    its advice), the advice given in every report, the records that count
    as notable, and the summary text. *)
Record catalog : Type := {
  type_multiplier : string -> Q;
  explanation_rules : list ((Evidence.t -> bool) * (nat -> string));
  recommendation_rules : list ((Evidence.t -> bool) * string);
  baseline_advice : list string;
  notable : Evidence.t -> bool;
  summary_text : nat -> Z -> verdict -> string
}.

(** Modelled from the spec: the heuristic scoring engine of the analysis
    service (service/app.py), which is not among the sources. Step 1: base
    weight from severity, high=15, medium=8, low=3; a severity outside the
    enumeration weighs nothing. *)
Definition base_weight (severity : string) : Q :=
  if (severity =? "high")%string then 15#1
  else if (severity =? "medium")%string then 8#1
  else if (severity =? "low")%string then 3#1
  else 0#1.

(** Modelled from the spec: step 2 of the scoring engine (service/app.py is
    not among the sources): weight times the multiplier of the type. *)
Definition contribution (c : catalog) (r : Evidence.t) : Q :=
  (base_weight (Evidence.severity r) * type_multiplier c (Evidence.type r))%Q.

(** Modelled from the spec: step 3 of the scoring engine (service/app.py is
    not among the sources): the sum of the contributions of all records. *)
Definition raw_score (c : catalog) (evidence : list Evidence.t) : Q :=
  fold_right (fun r acc => (contribution c r + acc)%Q) (0#1) evidence.

(** Modelled from the spec: the clamp of step 3 of the scoring engine
    (service/app.py is not among the sources). *)
Definition clamp (z : Z) : Z := Z.max 0 (Z.min 100 z).

(** Modelled from the spec: step 3 of the scoring engine (service/app.py is
    not among the sources): the sum brought to an integer of [0, 100]. The
    document does not say how the sum is rounded; the integer part is taken. *)
Definition risk_score_of (c : catalog) (evidence : list Evidence.t) : Z :=
  clamp (Qfloor (raw_score c evidence)).

(** Modelled from the spec: step 4 of the scoring engine (service/app.py is
    not among the sources): the closed bands 0-9, 10-29, 30-59, 60-79,
    80-100. *)
Definition verdict_of (score : Z) : verdict :=
  if score <=? 9 then Safe
  else if score <=? 29 then LowRisk
  else if score <=? 59 then MediumRisk
  else if score <=? 79 then HighRisk
  else Critical.

(** Modelled from the spec: the count behind an explanation line of the
    scoring engine (service/app.py is not among the sources). *)
Definition count_matching (p : Evidence.t -> bool) (evidence : list Evidence.t)
  : nat :=
  List.length (filter p evidence).

(** Modelled from the spec: step 5 of the scoring engine (service/app.py is
    not among the sources): one line per rule whose pattern is present,
    produced from the count. *)
Definition explanation_of (c : catalog) (evidence : list Evidence.t)
  : list string :=
  flat_map
    (fun rule =>
       let n := count_matching (fst rule) evidence in
       if Nat.eqb n 0 then [] else [snd rule n])
    (explanation_rules c).

(** Modelled from the spec: step 6 of the scoring engine (service/app.py is
    not among the sources): the advice of each rule whose pattern is
    present, once each. *)
Definition recommendations_of (c : catalog) (evidence : list Evidence.t)
  : list string :=
  nodup string_dec
    (baseline_advice c ++
     flat_map
       (fun rule => if existsb (fst rule) evidence then [snd rule] else [])
       (recommendation_rules c)).

(** Modelled from the spec: the reduction of a record for the report of
    the scoring engine (service/app.py is not among the sources). *)
Definition reduce (r : Evidence.t) : supporting :=
  {| s_type := Evidence.type r;
     s_severity := Evidence.severity r;
     s_snippet := Evidence.snippet r |}.

(** Modelled from the spec: step 7 of the scoring engine (service/app.py is
    not among the sources): the notable records, in their original order. *)
Definition supporting_of (c : catalog) (evidence : list Evidence.t)
  : list supporting :=
  map reduce (filter (notable c) evidence).

(** Modelled from the spec: the request handler of the analysis service
    (service/app.py), which is not among the sources. [None] is an evidence
    input that cannot be read as a list of records; it is scored as the
    empty list. *)
Definition analyze (c : catalog) (input : option (list Evidence.t)) : report :=
  let evidence := match input with Some l => l | None => [] end in
  let score := risk_score_of c evidence in
  {| risk_score := score;
     report_verdict := verdict_of score;
     summary := summary_text c (List.length evidence) score (verdict_of score);
     explanation := explanation_of c evidence;
     recommendations := recommendations_of c evidence;
     supporting_evidence := supporting_of c evidence |}.

End Service.

(** ** A small browser for concrete runs *)

(** Its state is the log of the host functions applied so far, the
    document and its ready state. [eval] computes sums of decimal numerals;
    every other host function returns [undefined]. *)
Record browser : Type := {
  applied : list (string * value * list value);
  readyState : string;
  all_elements : list element
}.

Definition digit_of (c : ascii) : option Z :=
  let n := nat_of_ascii c in
  if andb (Nat.leb 48 n) (Nat.leb n 57) then Some (Z.of_nat (n - 48)) else None.

Fixpoint sum_of (s : string) (current : option Z) (total : Z) : option Z :=
  match s with
  | EmptyString => option_map (Z.add total) current
  | String c rest =>
      match digit_of c with
      | Some d =>
          sum_of rest
            (Some (10 * match current with Some n => n | None => 0 end + d))
            total
      | None =>
          if Ascii.eqb c "+"%char then
            match current with
            | Some n => sum_of rest None (total + n)
            | None => None
            end
          else None
      end
  end.

Definition browser_apply (name : string) (this : value) (arguments : list value)
  (b : browser) : outcome value * browser :=
  let b' :=
    {| applied := applied b ++ [(name, this, arguments)];
       readyState := readyState b;
       all_elements := all_elements b |} in
  if (name =? "eval")%string then
    match nth 0 arguments VUndefined with
    | VStr code =>
        match sum_of code None 0 with
        | Some n => (Ok (VNum n), b')
        | None => (Thrown SyntaxError, b')
        end
    | v => (Ok v, b')
    end
  else (Ok VUndefined, b').

(** The global object of the small browser. *)
Definition browser_window : value := VObj [("name", VStr "")].

#[export] Instance browser_host : Host browser := {|
  host_apply := browser_apply;
  function_source := fun _ => "function () { [native code] }";
  global_object := fun _ => browser_window;
  location_href := fun _ => "https://example.com/";
  date_toISOString := fun _ => "2024-01-01T00:00:00.000Z";
  error_stack := fun _ => VStr "Error";
  document_readyState := readyState;
  document_elements := all_elements
|}.

Definition native_descriptor (name : string) : descriptor :=
  {| desc_get := VFunc ("get " ++ name); desc_set := VFunc ("set " ++ name) |}.

(** A page of the small browser before any script has run. *)
Definition blank_page (ready : string) (doc : list element) : page browser :=
  {| evidenceList := [];
     evidenceIdCounter := 0;
     window_eval := VFunc "eval";
     window_Function := VFunc "Function";
     document_write := VFunc "write";
     document_writeln := VFunc "writeln";
     window_setTimeout := VFunc "setTimeout";
     window_setInterval := VFunc "setInterval";
     innerHTML_desc := Some (native_descriptor "innerHTML");
     outerHTML_desc := Some (native_descriptor "outerHTML");
     proto_insertAdjacentHTML := VFunc "insertAdjacentHTML";
     pending_scans := 0;
     host := {| applied := []; readyState := ready; all_elements := doc |} |}.

Definition sample_button : element :=
  {| tagName := "BUTTON";
     attributes := [("id", "go"); ("onclick", "run()"); ("onfocus", "f()")];
     href := VUndefined; textContent := "Go"; innerText := "Go" |}.

Definition sample_anchor : element :=
  {| tagName := "A";
     attributes := [("href", "javascript:alert(1)")];
     href := VStr "javascript:alert(1)"; textContent := "x"; innerText := "x" |}.

Definition sample_script : element :=
  {| tagName := "SCRIPT";
     attributes := [];
     href := VUndefined; textContent := "var a = 1;"; innerText := "" |}.

Definition sample_doc : list element :=
  [sample_button; sample_anchor; sample_script].

(** Tables for concrete runs of the scoring engine, after the examples the
    design document gives. *)
Definition sample_catalog : Service.catalog :=
  {| Service.type_multiplier :=
       fun type =>
         if orb (type =? "eval-call")%string (type =? "function-constructor")%string
         then 2#1
         else if orb (type =? "innerhtml-set")%string (type =? "document-write")%string
         then 12#10
         else 1#1;
     Service.explanation_rules :=
       [ (fun r => (Evidence.severity r =? "high")%string,
          fun n => number_text (Z.of_nat n) ++ " high-severity items found");
         (fun r => (Evidence.type r =? "eval-call")%string,
          fun _ => "dynamic code execution detected") ];
     Service.recommendation_rules :=
       [ (fun r => (Evidence.type r =? "eval-call")%string,
          "Eliminate use of eval() and Function() constructor.") ];
     Service.baseline_advice :=
       [ "Validate and sanitize all user inputs on both client and server side." ];
     Service.notable := fun r => (Evidence.severity r =? "high")%string;
     Service.summary_text :=
       fun n _ _ => "Analysis of " ++ number_text (Z.of_nat n) ++ " evidence items" |}.

(** ** Vocabulary of the statements *)

Section Vocabulary.
Context {H : Type} `{HostH : Host H}.

(** The location [addEvidence] stores when none is given. *)
Definition default_location (st : page H) : value :=
  VObj [("url", VStr (location_href (host st))); ("selector", VNull)].

(** The record [addEvidence] builds for a string snippet. *)
Definition record_for (type severity snippet : string) (location stack : value)
  (st : page H) : Evidence.t :=
  Evidence.Build (evidenceIdCounter st + 1) (date_toISOString (host st))
    type severity (js_or location (default_location st))
    (js_substring snippet 0 200)
    (default_null stack).

(** The store after one more record. *)
Definition push (e : Evidence.t) (st : page H) : page H :=
  set_store (evidenceList st ++ [e]) (Evidence.id e) st.

(** The records a computation appends to the store of [st]. *)
Definition appended {A} (m : M H A) (st : page H) : list Evidence.t :=
  skipn (List.length (evidenceList st)) (evidenceList (snd (m st))).

(** [n] loads of the script file into a tab, one after the other. *)
Fixpoint loads (n : nat) (t : tab H) : tab H :=
  match n with
  | O => t
  | S k => snd (executeScript (loads k t))
  end.

(** [st'] continues [st]: the store has only grown, by records with fresh,
    increasing ids and bounded snippets. *)
Definition extends (st st' : page H) : Prop :=
  exists suffix,
    evidenceList st' = (evidenceList st ++ suffix)%list
    /\ evidenceIdCounter st <= evidenceIdCounter st'
    /\ Forall (fun r =>
                 evidenceIdCounter st < Evidence.id r <= evidenceIdCounter st'
                 /\ (String.length (Evidence.snippet r) <= 200)%nat) suffix
    /\ StronglySorted Z.lt (map Evidence.id suffix).

Definition grows {A} (m : M H A) : Prop :=
  forall st, extends st (snd (m st)).

(** What a record shows besides its id, time and stack. *)
Definition shape_of (r : Evidence.t) : string * string * value * string :=
  (Evidence.type r, Evidence.severity r, Evidence.location r, Evidence.snippet r).

(** [m] returns normally, touches nothing but the evidence store, and
    appends records of the shapes [shapes], computed from the host. *)
Definition emits (m : M H unit)
  (shapes : H -> list (string * string * value * string)) : Prop :=
  forall st,
    exists records c,
      m st = (Ok tt, set_store (evidenceList st ++ records) c st)
      /\ map shape_of records = shapes (host st).

(** The shapes of the records of the first loop for one element. *)
Definition handler_shapes (elem : element) (index : nat) (h : H)
  : list (string * string * value * string) :=
  map (fun attr =>
         ("inline-event-handler", "medium",
          handler_location (location_href h) elem attr index,
          js_substring (attr_snippet attr (getAttribute elem attr)) 0 200))
      (filter (hasAttribute elem) inlineEventAttrs).

(** A list with the position of each item, counted from [start]. *)
Definition indexed {A} (start : nat) (l : list A) : list (nat * A) :=
  combine (seq start (List.length l)) l.

(** The shapes of the records of the second and third loops. *)
Definition jsProtocol_shapes (h : H) : list (string * string * value * string) :=
  flat_map
    (fun p =>
       let attr := if truthy (href (snd p)) then "href" else "src" in
       [("javascript-protocol", "high",
         jsProtocol_location (location_href h) (snd p) attr (fst p),
         js_substring (attr_snippet attr (getAttribute (snd p) attr)) 0 200)])
    (indexed 0 (filter matches_jsProtocol (document_elements h))).

Definition inlineScript_shapes (h : H) : list (string * string * value * string) :=
  flat_map
    (fun p =>
       let content := script_content (snd p) in
       if andb (negb (content =? "")%string)
               (Nat.ltb 0 (String.length (trim content)))
       then [("inline-script", "low",
              inlineScript_location (location_href h) (fst p) content,
              js_substring content 0 200)]
       else [])
    (indexed 0 (filter matches_inlineScript (document_elements h))).

(** The shapes of all records of one static scan, in order. *)
Definition static_shapes (h : H) : list (string * string * value * string) :=
  (flat_map (fun p => handler_shapes (snd p) (fst p) h)
     (indexed 0 (document_elements h))
   ++ jsProtocol_shapes h ++ inlineScript_shapes h)%list.

(** The text a wrapper takes its snippet from. *)
Definition snippet_source (s : sink) (arguments : list value) : string :=
  match s with
  | FunctionCtor => String_ (last arguments (VStr ""))
  | InsertAdjacentHTML => String_ (arg 1 arguments)
  | _ => String_ (arg 0 arguments)
  end.

(** [m] keeps a property of all stored records. *)
Definition keeps (P : Evidence.t -> Prop) {A} (m : M H A) : Prop :=
  forall st, Forall P (evidenceList st) -> Forall P (evidenceList (snd (m st))).

(** Is the event a direct call of [addEvidence]? *)
Definition direct_add (e : @event H) : bool :=
  match e with
  | AddEvidence _ _ _ _ _ => true
  | _ => false
  end.

(** The store has no gap: the counter is the number of records, and the
    record at position k (from 1) has the id k. *)
Definition consecutive (st : page H) : Prop :=
  evidenceIdCounter st = Z.of_nat (List.length (evidenceList st))
  /\ map Evidence.id (evidenceList st) =
     map Z.of_nat (seq 1 (List.length (evidenceList st))).

(** [m] keeps a property of the page. *)
Definition preserves (I : page H -> Prop) {A} (m : M H A) : Prop :=
  forall st, I st -> I (snd (m st)).

(** A snippet argument without a [substring] member of its own: a
    primitive value, a function, or an object that does not hold the name. *)
Definition without_substring (v : value) : Prop :=
  match v with
  | VObj props => get_prop "substring" props = VUndefined
  | _ => True
  end.

(** An event in which [addEvidence], if called directly, gets such a
    snippet argument. *)
Definition plain_snippets (e : @event H) : Prop :=
  match e with
  | AddEvidence _ _ snippet _ _ => without_substring snippet
  | _ => True
  end.

End Vocabulary.

(** The evidence type and the severity of each sink. *)
Definition sink_type (s : sink) : string :=
  match s with
  | Eval => "eval-call"
  | FunctionCtor => "function-constructor"
  | DocumentWrite => "document-write"
  | DocumentWriteln => "document-writeln"
  | SetTimeout => "settimeout-string"
  | SetInterval => "setinterval-string"
  | InnerHTMLSet => "innerhtml-set"
  | OuterHTMLSet => "outerhtml-set"
  | InsertAdjacentHTML => "insertadjacenthtml"
  end.

Definition sink_severity (s : sink) : string :=
  match s with
  | Eval | FunctionCtor | SetTimeout | SetInterval => "high"
  | _ => "medium"
  end.

(** The argument a wrapper takes its snippet from. *)
Definition snippet_argument (s : sink) (arguments : list value) : value :=
  match s with
  | FunctionCtor => last arguments (VStr "")
  | InsertAdjacentHTML => nth 1 arguments VUndefined
  | _ => nth 0 arguments VUndefined
  end.

(** A value whose text is the one [String_] gives: a primitive value, with a
    number in the range where its decimal rendering is exact, or a
    function. The text of an object depends on the [toString] it brings. *)
Definition printable (v : value) : Prop :=
  match v with
  | VNum n => - 2 ^ 53 < n < 2 ^ 53
  | VObj _ => False
  | _ => True
  end.

(** A value that is an object or a function, bound as [this] as it is. *)
Definition is_object (v : value) : Prop :=
  match v with
  | VObj _ | VFunc _ | VHook _ _ => True
  | _ => False
  end.

(** The [this] of a call whose binding is among the values: an object, a
    function, or none ([undefined], [null]). *)
Definition bindable (this : value) : Prop :=
  match this with
  | VBool _ | VNum _ | VStr _ => False
  | _ => True
  end.

(** The [index] field of a location. *)
Definition location_index (loc : value) : option Z :=
  match loc with
  | VObj props =>
      match get_prop "index" props with
      | VNum n => Some n
      | _ => None
      end
  | _ => None
  end.

(** Is this the shape of an inline-event-handler record of the element at
    position [index]? *)
Definition is_handler_shape_at (index : nat)
  (x : string * string * value * string) : bool :=
  let '(type, _, location, _) := x in
  andb (type =? "inline-event-handler")%string
       match location_index location with
       | Some n => n =? Z.of_nat index
       | None => false
       end.

(** The shape of the inline-event-handler record for one attribute. *)
Definition handler_shape (url : string) (elem : element) (index : nat)
  (attr text : string) : string * string * value * string :=
  ("inline-event-handler", "medium",
   VObj [ ("url", VStr url);
          ("selector", VStr (toLowerCase (tagName elem) ++ "[" ++ attr ++ "]"));
          ("index", VNum (Z.of_nat index)) ],
   js_substring (attr ++ "=" ++ String "034"%char "" ++ text
                 ++ String "034"%char "") 0 200).

(** The attributes of an element whose name is in the fixed list. *)
Definition handler_attributes (elem : element) : list (string * string) :=
  filter (fun p => existsb (String.eqb (fst p)) inlineEventAttrs)
         (attributes elem).

(** An element as a [this] binding: an object whose [tagName] is text. *)
Definition is_element (this : value) : Prop :=
  exists props name, this = VObj props /\ get_prop "tagName" props = VStr name.

(** The invocations the sink table covers: a scheduler counts when its first
    argument is code as text; a property setter is entered by an assignment
    on an element, with the assigned value as its only argument; the
    insertion method is called on an element. *)
Definition instrumented_call (s : sink) (this : value) (arguments : list value)
  : Prop :=
  match s with
  | SetTimeout | SetInterval => is_string (nth 0 arguments VUndefined) = true
  | InnerHTMLSet | OuterHTMLSet =>
      is_element this /\ exists v, arguments = [v]
  | InsertAdjacentHTML => is_element this
  | _ => True
  end.

(** The three severities of evidence records. *)
Definition known_severity (severity : string) : bool :=
  existsb (String.eqb severity) ["high"; "medium"; "low"].

(** The records of a list all have one of the three severities. *)
Definition known_severities (items : list Evidence.t) : Prop :=
  Forall (fun r => known_severity (Evidence.severity r) = true) items.

(** The weight of a record by its severity: high 10, medium 5, low 2. *)
Definition weight_of (r : Evidence.t) : Z :=
  if (Evidence.severity r =? "high")%string then 10
  else if (Evidence.severity r =? "medium")%string then 5
  else if (Evidence.severity r =? "low")%string then 2
  else 0.

(** The level the popup gives a score. *)
Definition quick_level (score : Z) : string :=
  if 50 <=? score then "high"
  else if 20 <=? score then "medium"
  else "low".

(** The number of records of a given severity. *)
Definition severity_count (severity : string) (items : list Evidence.t) : Z :=
  Z.of_nat (count_occ string_dec (map Evidence.severity items) severity).

(** The records of an evidence argument, none when it is absent. *)
Definition items_of (evidence : option (list Evidence.t)) : list Evidence.t :=
  match evidence with
  | Some items => items
  | None => []
  end.

(** A record with a given type and severity, for concrete runs. *)
Definition sample (type severity : string) : Evidence.t :=
  Evidence.Build 1 "2024-01-01T00:00:00.000Z" type severity
    (VObj [("url", VStr "https://example.com/")]) "" VNull.

(** Is there a code unit in [s] that [trim] keeps? *)
Fixpoint has_text (s : string) : bool :=
  match s with
  | EmptyString => false
  | String c r => orb (negb (is_space c)) (has_text r)
  end.

(** The type of a shape. *)
Definition type_of_shape (x : string * string * value * string) : string :=
  fst (fst (fst x)).

(** The severity the script gives each evidence type. *)
Definition severity_of_type (type : string) : option string :=
  if existsb (String.eqb type)
       ["eval-call"; "function-constructor"; "javascript-protocol";
        "settimeout-string"; "setinterval-string"]
  then Some "high"
  else if existsb (String.eqb type)
            ["document-write"; "document-writeln"; "innerhtml-set";
             "outerhtml-set"; "insertadjacenthtml"; "inline-event-handler"]
  then Some "medium"
  else if (type =? "inline-script")%string then Some "low"
  else None.

(** The types of the static scan. *)
Definition is_static_type (type : string) : bool :=
  existsb (String.eqb type)
    ["inline-event-handler"; "javascript-protocol"; "inline-script"].

(** A record as the scanner and the wrappers write them: the severity is
    the one of its type, a static finding has no stack, and the stack is
    never [undefined]. *)
Definition record_ok (r : Evidence.t) : Prop :=
  severity_of_type (Evidence.type r) = Some (Evidence.severity r)
  /\ (is_static_type (Evidence.type r) = true -> Evidence.stack r = VNull)
  /\ Evidence.stack r <> VUndefined.

(** The rank of a level of the popup. *)
Definition level_rank (level : string) : Z :=
  if (level =? "high")%string then 2
  else if (level =? "medium")%string then 1
  else 0.

(** The rank of the severity of a record, 0 for a severity the popup does
    not know. *)
Definition severity_rank (r : Evidence.t) : Z :=
  match severityOrder (Evidence.severity r) with
  | Some n => n
  | None => 0
  end.

(** Dates for concrete runs: a time text is a decimal numeral. *)
Definition sample_dates : DateHost :=
  {| Date_value := fun s => sum_of s None 0;
     toLocaleTimeString :=
       fun v => match v with
                | Some n => number_text n
                | None => "Invalid Date"
                end |}.

(** A record with a given severity and time, for concrete runs. *)
Definition sample_at (severity time : string) : Evidence.t :=
  Evidence.Build 1 time "eval-call" severity
    (VObj [("url", VStr "https://example.com/")]) "" VNull.

(** A page of the small browser whose [innerHTML] cannot be hooked. *)
Definition legacy_page : page browser :=
  {| evidenceList := [];
     evidenceIdCounter := 0;
     window_eval := VFunc "eval";
     window_Function := VFunc "Function";
     document_write := VFunc "write";
     document_writeln := VFunc "writeln";
     window_setTimeout := VFunc "setTimeout";
     window_setInterval := VFunc "setInterval";
     innerHTML_desc := None;
     outerHTML_desc :=
       Some {| desc_get := VFunc "get outerHTML"; desc_set := VUndefined |};
     proto_insertAdjacentHTML := VFunc "insertAdjacentHTML";
     pending_scans := 0;
     host := {| applied := []; readyState := "loading"; all_elements := sample_doc |} |}.

(** Events of a session of the small browser, for concrete runs. *)
Definition sample_events : list (@event browser) :=
  [Invoke Eval VUndefined [VStr "1+1"]; Install; DOMContentLoaded].

(** Does a record pass the two filters of the popup? *)
Definition passes_filters (typeFilter severityFilter : string) (e : Evidence.t)
  : bool :=
  andb (orb (typeFilter =? "all")%string (Evidence.type e =? typeFilter)%string)
       (orb (severityFilter =? "all")%string
            (Evidence.severity e =? severityFilter)%string).

(** Is the value of the sort control one of the four orders? *)
Definition known_sort (sortBy : string) : bool :=
  existsb (String.eqb sortBy)
    ["time-desc"; "time-asc"; "severity-desc"; "severity-asc"].

(** The time value of a record, 0 for an invalid date. *)
Definition time_key `{DateHost} (r : Evidence.t) : Z :=
  match Date_value (Evidence.time r) with
  | Some n => n
  | None => 0
  end.

(** The entry a table holds itself under a name. *)
Definition own_entry (k : string) (o : list (string * value)) : option value :=
  option_map snd (find (fun p => (fst p =? k)%string) o).

(** The sum of the counters of a table. *)
Definition sum_values (o : list (string * value)) : Z :=
  fold_right Z.add 0
    (map (fun p => match snd p with VNum n => n | _ => 0 end) o).

(** The twelve evidence types of the collector. *)
Definition known_type (type : string) : bool :=
  match severity_of_type type with
  | Some _ => true
  | None => false
  end.

(** The records of a list all have one of the twelve types. *)
Definition known_types (items : list Evidence.t) : Prop :=
  Forall (fun r => known_type (Evidence.type r) = true) items.

(** The number of records of a type. *)
Definition type_count (type : string) (items : list Evidence.t) : Z :=
  Z.of_nat (count_occ string_dec (map Evidence.type items) type).

(** A tab of the small browser into which the script has not been loaded. *)
Definition sample_tab : tab browser :=
  {| declared := false; tab_page := blank_page "complete" sample_doc |}.

(** A popup before any evidence has arrived, for concrete runs. *)
Definition sample_popup : popup :=
  {| currentEvidence := [];
     currentUrl := "https://example.com/";
     evidenceCount_textContent := "0";
     riskBadge := updateRiskBadge "low";
     evidenceContainer := InnerHTML "";
     typeFilter_value := "all";
     severityFilter_value := "all";
     sortBy_value := "severity-desc" |}.

(** A text of [n] code units. *)
Fixpoint filler (n : nat) : string :=
  match n with
  | O => EmptyString
  | S k => String "a"%char (filler k)
  end.

(** An argument that stands for a missing snippet. *)
Definition missing_snippet (v : value) : Prop :=
  v = VNull \/ v = VUndefined \/ v = VStr "".

(** A snippet argument [addEvidence] can store: missing, or a string. *)
Definition storable_snippet (v : value) : Prop :=
  missing_snippet v \/ is_string v = true.

(** An argument that stands for a missing location. *)
Definition missing_location (v : value) : Prop :=
  v = VNull \/ v = VUndefined.

(** ** Strings: basic facts *)

Lemma substring_0_length (m : nat) (s : string) :
  String.length (String.substring 0 m s) = Nat.min m (String.length s).
Proof.
  revert s; induction m as [|m IH]; intros s.
  - destruct s; reflexivity.
  - destruct s as [|c r]; [reflexivity|].
    simpl. now rewrite IH.
Qed.

Lemma js_substring_0_length (s : string) (n : nat) :
  String.length (js_substring s 0 n) = Nat.min n (String.length s).
Proof.
  unfold js_substring.
  rewrite Nat.min_0_l. simpl Nat.min.
  rewrite Nat.max_0_l, Nat.sub_0_r.
  rewrite substring_0_length. lia.
Qed.

Lemma substring_0_prefix (m : nat) (s : string) :
  String.prefix (String.substring 0 m s) s = true.
Proof.
  revert s; induction m as [|m IH]; intros s.
  - destruct s; reflexivity.
  - destruct s as [|c r]; [reflexivity|].
    simpl. destruct (ascii_dec c c) as [_|ne]; [apply IH | now elim ne].
Qed.

Lemma js_substring_0_prefix (s : string) (n : nat) :
  String.prefix (js_substring s 0 n) s = true.
Proof.
  unfold js_substring.
  rewrite Nat.min_0_l. simpl Nat.min.
  rewrite Nat.max_0_l, Nat.sub_0_r.
  apply substring_0_prefix.
Qed.

Lemma substring_0_all (m : nat) (s : string) :
  (String.length s <= m)%nat -> String.substring 0 m s = s.
Proof.
  revert s; induction m as [|m IH]; intros s Hs.
  - destruct s; [reflexivity | simpl in Hs; lia].
  - destruct s as [|c r]; [reflexivity|].
    simpl in *. f_equal. apply IH. lia.
Qed.

Lemma js_substring_0_long (s : string) (n : nat) :
  (n <= String.length s)%nat -> js_substring s 0 n = String.substring 0 n s.
Proof.
  intros Hs. unfold js_substring.
  rewrite Nat.min_0_l. simpl Nat.min.
  rewrite Nat.max_0_l, Nat.sub_0_r.
  now rewrite Nat.min_l by exact Hs.
Qed.

Lemma js_substring_0_short (s : string) (n : nat) :
  (String.length s <= n)%nat -> js_substring s 0 n = s.
Proof.
  intros Hs. unfold js_substring.
  rewrite Nat.min_0_l. simpl Nat.min.
  rewrite Nat.max_0_l, Nat.sub_0_r.
  rewrite Nat.min_r by exact Hs.
  now apply substring_0_all.
Qed.

(** ** addEvidence: equations *)

Section ContentScriptFacts.
Context {H : Type} `{HostH : Host H}.

Lemma addEvidence_string type severity s location stack (st : page H) :
  addEvidence type severity (VStr s) location stack st =
  (Ok (record_for type severity s location stack st),
   push (record_for type severity s location stack st) st).
Proof.
  unfold addEvidence, record_for, push, default_location.
  destruct s as [|c r]; reflexivity.
Qed.

Lemma addEvidence_falsy type severity snippet location stack (st : page H) :
  truthy snippet = false ->
  addEvidence type severity snippet location stack st =
  (Ok (record_for type severity "" location stack st),
   push (record_for type severity "" location stack st) st).
Proof.
  intros Hf. unfold addEvidence. rewrite Hf. reflexivity.
Qed.

(** ** The store only grows *)

Lemma StronglySorted_lt_app (l1 l2 : list Z) :
  StronglySorted Z.lt l1 -> StronglySorted Z.lt l2 ->
  (forall x y, In x l1 -> In y l2 -> x < y) ->
  StronglySorted Z.lt (l1 ++ l2)%list.
Proof.
  intros S1 S2 Hlt. induction S1 as [|a l1 S1 IH Ha]; simpl.
  - exact S2.
  - constructor.
    + apply IH. intros x y Hx Hy. apply Hlt; [now right | exact Hy].
    + apply Forall_app. split; [exact Ha|].
      apply Forall_forall. intros y Hy. apply Hlt; [now left | exact Hy].
Qed.

Lemma extends_refl (st : page H) : extends st st.
Proof.
  exists []. rewrite app_nil_r. repeat split; try lia; constructor.
Qed.

Lemma extends_trans (st1 st2 st3 : page H) :
  extends st1 st2 -> extends st2 st3 -> extends st1 st3.
Proof.
  intros (s1 & E1 & C1 & F1 & S1) (s2 & E2 & C2 & F2 & S2).
  exists (s1 ++ s2)%list. repeat split.
  - rewrite E2, E1. now rewrite app_assoc.
  - lia.
  - apply Forall_app. split.
    + eapply Forall_impl; [|exact F1]. simpl. intros r [Hr Hs]. split; [lia | exact Hs].
    + eapply Forall_impl; [|exact F2]. simpl. intros r [Hr Hs]. split; [lia | exact Hs].
  - rewrite map_app. apply StronglySorted_lt_app; [exact S1 | exact S2 |].
    intros x y Hx Hy.
    apply in_map_iff in Hx. destruct Hx as (rx & <- & Hx).
    apply in_map_iff in Hy. destruct Hy as (ry & <- & Hy).
    rewrite Forall_forall in F1, F2.
    specialize (F1 _ Hx). specialize (F2 _ Hy). lia.
Qed.

Lemma extends_push (e : Evidence.t) (st : page H) :
  Evidence.id e = evidenceIdCounter st + 1 ->
  (String.length (Evidence.snippet e) <= 200)%nat ->
  extends st (push e st).
Proof.
  intros Hid Hs. exists [e]. unfold push. simpl. repeat split.
  - lia.
  - constructor; [|constructor]. split; [lia | exact Hs].
  - constructor; constructor.
Qed.

Lemma extends_same_store (st st' : page H) :
  evidenceList st' = evidenceList st ->
  evidenceIdCounter st <= evidenceIdCounter st' ->
  extends st st'.
Proof.
  intros El Ec. exists []. rewrite app_nil_r. repeat split; try assumption; constructor.
Qed.

Lemma grows_ret {A} (a : A) : grows (@ret H A a).
Proof. intros st. apply extends_refl. Qed.

Lemma grows_throw {A} (e : value) : grows (@throw H A e).
Proof. intros st. apply extends_refl. Qed.

Lemma grows_bind {A B} (m : M H A) (k : A -> M H B) :
  grows m -> (forall a, grows (k a)) -> grows (bind m k).
Proof.
  intros Hm Hk st. unfold bind.
  specialize (Hm st). destruct (m st) as [[a|e] st1]; simpl in *.
  - eapply extends_trans; [exact Hm | apply Hk].
  - exact Hm.
Qed.

Lemma grows_addEvidence type severity snippet location stack :
  grows (addEvidence type severity snippet location stack).
Proof.
  intros st.
  destruct snippet as [| |b|n|s|props|name|s original];
    try (rewrite addEvidence_falsy by reflexivity;
         apply extends_push; [reflexivity | simpl; lia]).
  - destruct b.
    + unfold addEvidence; simpl. apply extends_same_store; simpl; [reflexivity | lia].
    + rewrite addEvidence_falsy by reflexivity.
      apply extends_push; [reflexivity | simpl; lia].
  - destruct (n =? 0) eqn:En.
    + rewrite addEvidence_falsy by (simpl; now rewrite En).
      apply extends_push; [reflexivity | simpl; lia].
    + unfold addEvidence; simpl. rewrite En. simpl.
      apply extends_same_store; simpl; [reflexivity | lia].
  - rewrite addEvidence_string.
    apply extends_push; [reflexivity|].
    simpl. rewrite js_substring_0_length. lia.
  - unfold addEvidence; simpl. apply extends_same_store; simpl; [reflexivity | lia].
  - unfold addEvidence; simpl. apply extends_same_store; simpl; [reflexivity | lia].
  - unfold addEvidence; simpl. apply extends_same_store; simpl; [reflexivity | lia].
Qed.

Lemma grows_window_location_href : grows (@window_location_href H _).
Proof. intros st. apply extends_refl. Qed.

Lemma grows_new_Error_stack : grows (@new_Error_stack H _).
Proof. intros st. apply extends_refl. Qed.

Lemma grows_querySelectorAll_star : grows (@querySelectorAll_star H _).
Proof. intros st. apply extends_refl. Qed.

Lemma grows_this_selector (this : value) : grows (this_selector (H:=H) this).
Proof.
  destruct this as [| |b|n|s|props|name|s original]; simpl;
    try apply grows_throw; try apply grows_ret.
  destruct (truthy (get_prop "tagName" props)); [|apply grows_ret].
  destruct (get_prop "tagName" props); try apply grows_throw; apply grows_ret.
Qed.

Create HintDb grows.
#[local] Hint Resolve grows_ret grows_throw grows_addEvidence
  grows_window_location_href grows_new_Error_stack grows_querySelectorAll_star
  grows_this_selector : grows.

Ltac grows_steps :=
  repeat first
    [ apply grows_bind; [|intros ?]
    | solve [auto with grows] ].

Lemma grows_forEach_from {A} (f : A -> nat -> M H unit) (l : list A) :
  (forall x i, grows (f x i)) -> forall i, grows (forEach_from f l i).
Proof.
  intros Hf. induction l as [|x rest IH]; intros i; simpl.
  - apply grows_ret.
  - apply grows_bind; [apply Hf | intros _; apply IH].
Qed.

Lemma grows_forEach {A} (f : A -> nat -> M H unit) (l : list A) :
  (forall x i, grows (f x i)) -> grows (forEach f l).
Proof. intros Hf. now apply grows_forEach_from. Qed.

Lemma grows_collectInlineEventHandlers : grows (@collectInlineEventHandlers H _).
Proof.
  unfold collectInlineEventHandlers.
  apply grows_bind; [auto with grows | intros doc].
  apply grows_forEach. intros elem index.
  apply grows_forEach. intros attr i. unfold collectInlineEventHandler.
  destruct (hasAttribute elem attr); grows_steps.
Qed.

Lemma grows_collectJsProtocol : grows (@collectJsProtocol H _).
Proof.
  unfold collectJsProtocol.
  apply grows_bind; [auto with grows | intros doc].
  apply grows_forEach. intros elem index.
  unfold collectJsProtocolElement. grows_steps.
Qed.

Lemma grows_collectInlineScript (script : element) (index : nat) :
  grows (collectInlineScript (H:=H) script index).
Proof.
  unfold collectInlineScript.
  destruct (andb _ _); grows_steps.
Qed.

Lemma grows_collectInlineScripts : grows (@collectInlineScripts H _).
Proof.
  unfold collectInlineScripts.
  apply grows_bind; [auto with grows | intros doc].
  apply grows_forEach. intros. apply grows_collectInlineScript.
Qed.

Lemma grows_collectStaticSignals : grows (@collectStaticSignals H _).
Proof.
  unfold collectStaticSignals.
  apply grows_bind; [apply grows_collectInlineEventHandlers | intros _].
  apply grows_bind; [apply grows_collectJsProtocol | intros _].
  apply grows_collectInlineScripts.
Qed.

Lemma grows_hook_record (s : sink) (this : value) (arguments : list value) :
  grows (hook_record (H:=H) s this arguments).
Proof.
  destruct s; simpl; try solve [grows_steps];
    destruct (is_string (arg 0 arguments)); grows_steps.
Qed.

Lemma grows_call (f this : value) (arguments : list value) :
  grows (call (H:=H) f this arguments).
Proof.
  revert this arguments.
  induction f as [| |b|n|s|props|name|s original IH]; intros this arguments;
    simpl; try apply grows_throw.
  - intros st. destruct (host_apply name this arguments (host st)) as [r h].
    apply extends_same_store; simpl; [reflexivity | lia].
  - intros st.
    apply (grows_bind (hook_record s (bound_this (host st) this) arguments)
             (fun _ => call original (bound_this (host st) this)
                         (forwarded s arguments)));
      [apply grows_hook_record | intros _; apply IH].
Qed.

Lemma grows_hookRuntimeSinks : grows (@hookRuntimeSinks H).
Proof. intros st. apply extends_same_store; simpl; [reflexivity | lia]. Qed.

Lemma grows_initialize : grows (@initialize H _).
Proof.
  intros st. unfold initialize.
  apply grows_bind; [|intros _; apply grows_hookRuntimeSinks].
  destruct (String.eqb _ _).
  - intros st'. apply extends_same_store; simpl; [reflexivity | lia].
  - apply grows_collectStaticSignals.
Qed.

Lemma grows_repeatM (n : nat) (m : M H unit) : grows m -> grows (repeatM n m).
Proof.
  intros Hm. induction n as [|n IH]; simpl.
  - apply grows_ret.
  - apply grows_bind; [exact Hm | intros _; exact IH].
Qed.

Lemma extends_step (e : event) (st : page H) : extends st (step e st).
Proof.
  destruct e; simpl.
  - apply grows_repeatM, grows_collectStaticSignals.
  - apply grows_call.
  - apply grows_call.
  - apply grows_hookRuntimeSinks.
  - apply grows_addEvidence.
  - apply extends_same_store; simpl; [reflexivity | lia].
Qed.

Lemma extends_run (events : list event) (st : page H) : extends st (run events st).
Proof.
  revert st. induction events as [|e rest IH]; intros st; simpl.
  - apply extends_refl.
  - eapply extends_trans; [apply extends_step | apply IH].
Qed.

Lemma run_app (events more : list event) (st : page H) :
  run (events ++ more) st = run more (run events st).
Proof. unfold run. apply fold_left_app. Qed.

Lemma extends_session_start (env : page H) :
  extends (set_store [] 0 env) (snd (content_script env)).
Proof. unfold content_script. apply grows_initialize. Qed.

(** ** addEvidence: what a call stores *)

Lemma addEvidence_Ok_inv type severity snippet location stack (st : page H) e st' :
  addEvidence type severity snippet location stack st = (Ok e, st') ->
  exists s,
    (snippet = VStr s \/ (truthy snippet = false /\ s = ""))
    /\ e = record_for type severity s location stack st
    /\ st' = push e st.
Proof.
  intros Hcall.
  destruct (truthy snippet) eqn:Ht.
  - destruct snippet as [| |b|n|s|props|name|s original];
      try discriminate Ht;
      try (unfold addEvidence in Hcall; rewrite Ht in Hcall; discriminate Hcall).
    rewrite addEvidence_string in Hcall. inversion Hcall; subst.
    exists s. repeat split. now left.
  - rewrite addEvidence_falsy in Hcall by exact Ht. inversion Hcall; subst.
    exists "". repeat split. now right.
Qed.

Lemma storable_snippet_cases (snippet : value) :
  storable_snippet snippet ->
  (exists s, snippet = VStr s) \/ truthy snippet = false.
Proof.
  intros [[-> | [-> | ->]] | Hs]; try (now right).
  destruct snippet; try discriminate Hs. left. now eexists.
Qed.

(** C10. [addEvidence] accepts missing optional inputs: a call whose snippet
    is missing ([null], [undefined], empty) or a string returns a record and
    stores it; a missing snippet is stored as the empty string, a missing
    location ([null] or omitted) as the page address with a [null] selector,
    and an omitted stack as [null]. *)
Theorem addEvidence_defaults
  type severity snippet location stack (st : page H) :
  storable_snippet snippet ->
  exists e,
    addEvidence type severity snippet location stack st = (Ok e, push e st)
    /\ (missing_snippet snippet -> Evidence.snippet e = "")
    /\ (missing_location location ->
        Evidence.location e =
        VObj [("url", VStr (location_href (host st))); ("selector", VNull)])
    /\ (stack = VUndefined -> Evidence.stack e = VNull).
Proof.
  intros Hs.
  assert (Hshape : exists s,
             addEvidence type severity snippet location stack st =
             (Ok (record_for type severity s location stack st),
              push (record_for type severity s location stack st) st)
             /\ (missing_snippet snippet -> s = "")).
  { destruct (storable_snippet_cases _ Hs) as [[s ->] | Hf].
    - exists s. split; [apply addEvidence_string|].
      intros [Hm | [Hm | Hm]]; try discriminate Hm. now inversion Hm.
    - exists "". split; [now apply addEvidence_falsy | reflexivity]. }
  destruct Hshape as (s & Hcall & Hmiss).
  exists (record_for type severity s location stack st).
  split; [exact Hcall|]. split; [|split].
  - intros Hm. rewrite (Hmiss Hm). reflexivity.
  - intros [-> | ->]; reflexivity.
  - intros ->. reflexivity.
Qed.

Lemma StronglySorted_lt_NoDup (l : list Z) : StronglySorted Z.lt l -> NoDup l.
Proof.
  induction 1 as [|a l Hs IH Ha]; constructor; [|exact IH].
  intros Hin. rewrite Forall_forall in Ha. specialize (Ha _ Hin). lia.
Qed.

Lemma session_store (env : page H) (events : list event) :
  exists records,
    evidenceList (session env events) = records
    /\ Forall (fun r =>
                 0 < Evidence.id r <= evidenceIdCounter (session env events)
                 /\ (String.length (Evidence.snippet r) <= 200)%nat) records
    /\ StronglySorted Z.lt (map Evidence.id records).
Proof.
  assert (E : extends (set_store [] 0 env) (session env events)).
  { eapply extends_trans; [apply extends_session_start | apply extends_run]. }
  destruct E as (suffix & El & Ec & Fa & Ss). simpl in El, Ec, Fa.
  exists suffix. repeat split; assumption.
Qed.

(** C5. In a page session the ids of the stored records are strictly
    increasing in insertion order, hence pairwise distinct; every id was
    taken from the counter, and whatever happens later leaves the stored
    records in place and gives the new ones ids above every earlier id. *)
Theorem evidence_ids_strictly_increasing
  (env : page H) (events more : list event) :
  StronglySorted Z.lt (map Evidence.id (evidenceList (session env events)))
  /\ NoDup (map Evidence.id (evidenceList (session env events)))
  /\ Forall (fun r => 0 < Evidence.id r <= evidenceIdCounter (session env events))
       (evidenceList (session env events))
  /\ exists later,
       evidenceList (session env (events ++ more)) =
       (evidenceList (session env events) ++ later)%list
       /\ Forall (fun r => evidenceIdCounter (session env events) < Evidence.id r)
            later
       /\ StronglySorted Z.lt (map Evidence.id later).
Proof.
  destruct (session_store env events) as (records & El & Fa & Ss).
  rewrite El. repeat split.
  - exact Ss.
  - now apply StronglySorted_lt_NoDup.
  - eapply Forall_impl; [|exact Fa]. simpl. tauto.
  - unfold session. rewrite run_app.
    destruct (extends_run more (run events (snd (content_script env))))
      as (later & El' & _ & Fa' & Ss').
    exists later. split; [|split].
    + rewrite El'. f_equal. exact El.
    + eapply Forall_impl; [|exact Fa']. simpl. tauto.
    + exact Ss'.
Qed.

(** C4. A stored snippet never exceeds 200 code units. [addEvidence],
    given a snippet argument without a [substring] member of its own (the
    script passes strings), stores at most 200 units, and a string longer
    than that is cut to its first 200 units; every record of a page session
    obeys the bound, whatever the page does, as long as direct calls of
    [addEvidence] get such arguments. The inline-script record of the static
    scanner keeps the length of the whole script text in the [length] field
    of its location. *)
Theorem snippet_capped_at_200 :
  (forall type severity snippet location stack (st : page H) e st',
      without_substring snippet ->
      addEvidence type severity snippet location stack st = (Ok e, st') ->
      (String.length (Evidence.snippet e) <= 200)%nat
      /\ forall s, snippet = VStr s -> (200 < String.length s)%nat ->
           String.length (Evidence.snippet e) = 200%nat
           /\ Evidence.snippet e = String.substring 0 200 s)
  /\ (forall (env : page H) events,
         Forall plain_snippets events ->
         Forall (fun r => (String.length (Evidence.snippet r) <= 200)%nat)
           (evidenceList (session env events)))
  /\ (forall (script : element) (index : nat) (st : page H),
         script_content script <> "" ->
         trim (script_content script) <> "" ->
         exists e,
           collectInlineScript script index st = (Ok tt, push e st)
           /\ Evidence.type e = "inline-script"
           /\ Evidence.severity e = "low"
           /\ Evidence.snippet e = js_substring (script_content script) 0 200
           /\ exists props,
                Evidence.location e = VObj props
                /\ get_prop "length" props =
                   VNum (Z.of_nat (String.length (script_content script)))).
Proof.
  split; [|split].
  - intros type severity snippet location stack st e st' _ Hcall.
    destruct (addEvidence_Ok_inv _ _ _ _ _ _ _ _ Hcall) as (s0 & Hs0 & -> & _).
    unfold record_for; cbn [Evidence.snippet]. split.
    + rewrite js_substring_0_length. lia.
    + intros s -> Hlen.
      destruct Hs0 as [Heq | [Hf _]].
      * inversion Heq; subst s0. split.
        -- rewrite js_substring_0_length. lia.
        -- apply js_substring_0_long. lia.
      * destruct s; [simpl in Hlen; lia | discriminate Hf].
  - intros env events _.
    destruct (session_store env events) as (records & -> & Fa & _).
    eapply Forall_impl; [|exact Fa]. simpl. tauto.
  - intros script index st Hne Htrim.
    unfold collectInlineScript.
    assert (G : andb (negb (script_content script =? "")%string)
                     (Nat.ltb 0 (String.length (trim (script_content script))))
                = true).
    { apply andb_true_intro. split.
      - apply negb_true_iff. now apply String.eqb_neq.
      - apply Nat.ltb_lt. destruct (trim (script_content script));
          [now elim Htrim | simpl; lia]. }
    rewrite G.
    exists (record_for "inline-script" "low" (script_content script)
              (inlineScript_location (location_href (host st)) index
                 (script_content script)) VUndefined st).
    split.
    + unfold bind, window_location_href. rewrite addEvidence_string. reflexivity.
    + repeat split. eexists. split; reflexivity.
Qed.

(** ** The wrappers *)

Lemma call_host (name : string) (this : value) (arguments : list value)
  (st : page H) :
  call (VFunc name) this arguments st =
  (fst (host_apply name this arguments (host st)),
   set_host (snd (host_apply name this arguments (host st))) st).
Proof. simpl. now destruct (host_apply name this arguments (host st)). Qed.

Lemma call_hook (s : sink) (original this : value) (arguments : list value)
  (st st' : page H) :
  hook_record s (bound_this (host st) this) arguments st = (Ok tt, st') ->
  call (VHook s original) this arguments st =
  call original (bound_this (host st) this) (forwarded s arguments) st'.
Proof. intros Hr. simpl. unfold bind. now rewrite Hr. Qed.

Lemma bound_this_object (h : H) (this : value) :
  is_object this -> bound_this h this = this.
Proof. destruct this; simpl; intros Ho; try reflexivity; contradiction. Qed.

Lemma this_selector_element (this : value) (st : page H) :
  is_element this -> exists selector, this_selector this st = (Ok selector, st).
Proof.
  intros (props & name & -> & Hn). simpl. rewrite Hn.
  destruct (truthy (VStr name)); eexists; reflexivity.
Qed.

Lemma String_code_text (code : value) :
  code_text code = VStr (String_ code).
Proof. now destruct code. Qed.

(** What a wrapper stores before it delegates. *)
Lemma hook_record_instrumented (s : sink) (this : value) (arguments : list value)
  (st : page H) :
  instrumented_call s this arguments ->
  exists e,
    hook_record s this arguments st = (Ok tt, push e st)
    /\ Evidence.id e = evidenceIdCounter st + 1
    /\ Evidence.type e = sink_type s
    /\ Evidence.severity e = sink_severity s
    /\ Evidence.snippet e = js_substring (snippet_source s arguments) 0 200
    /\ Evidence.stack e = default_null (error_stack (host st)).
Proof.
  intros Hc. destruct s; simpl in Hc; simpl hook_record;
    unfold bind, window_location_href, new_Error_stack.
  - rewrite String_code_text, addEvidence_string.
    eexists; split; [reflexivity | repeat split].
  - rewrite addEvidence_string. eexists; split; [reflexivity | repeat split].
  - rewrite addEvidence_string. eexists; split; [reflexivity | repeat split].
  - rewrite addEvidence_string. eexists; split; [reflexivity | repeat split].
  - unfold arg. rewrite Hc.
    destruct (nth 0 arguments VUndefined) eqn:Ea; try discriminate Hc.
    rewrite addEvidence_string. eexists; split; [reflexivity|].
    unfold snippet_source, arg. rewrite Ea. repeat split.
  - unfold arg. rewrite Hc.
    destruct (nth 0 arguments VUndefined) eqn:Ea; try discriminate Hc.
    rewrite addEvidence_string. eexists; split; [reflexivity|].
    unfold snippet_source, arg. rewrite Ea. repeat split.
  - destruct Hc as [He _].
    destruct (this_selector_element this st He) as [selector ->].
    rewrite addEvidence_string. eexists; split; [reflexivity | repeat split].
  - destruct Hc as [He _].
    destruct (this_selector_element this st He) as [selector ->].
    rewrite addEvidence_string. eexists; split; [reflexivity | repeat split].
  - destruct (this_selector_element this st Hc) as [selector ->].
    rewrite addEvidence_string. eexists; split; [reflexivity | repeat split].
Qed.

Lemma forwarded_instrumented (s : sink) (this : value) (arguments : list value) :
  instrumented_call s this arguments -> forwarded s arguments = arguments.
Proof.
  destruct s; simpl; try reflexivity; intros [_ [v ->]]; reflexivity.
Qed.

Lemma installed_after_hook (s : sink) (st : page H) :
  truthy (installed s st) = true ->
  installed s (snd (hookRuntimeSinks st)) = VHook s (installed s st).
Proof.
  destruct s; simpl; try reflexivity; intros Ht.
  - destruct (innerHTML_desc st) as [d|]; simpl in *; [|discriminate].
    now rewrite Ht.
  - destruct (outerHTML_desc st) as [d|]; simpl in *; [|discriminate].
    now rewrite Ht.
Qed.


(** C6. The wrapped schedulers record by argument type. When the first
    argument of [setTimeout] or [setInterval] is a string, the wrapper
    appends exactly one record of type [settimeout-string] or
    [setinterval-string] and of high severity; for any other first argument,
    a function reference included, it leaves the store as it is. Either way
    the wrapper goes on to call its original, with its own [this] binding
    and the arguments of the call, and with the host scheduler as original
    the outcome and host effect are the scheduler's. *)
Theorem scheduler_records_only_text
  (s : sink) (original this : value) (arguments : list value) (st : page H) :
  s = SetTimeout \/ s = SetInterval ->
  installed s (snd (hookRuntimeSinks st)) = VHook s (installed s st)
  /\ match nth 0 arguments VUndefined with
     | VStr code =>
         exists e,
           Evidence.type e =
           match s with
           | SetTimeout => "settimeout-string"
           | _ => "setinterval-string"
           end
           /\ Evidence.severity e = "high"
           /\ Evidence.snippet e = js_substring code 0 200
           /\ Evidence.id e = evidenceIdCounter st + 1
           /\ (forall receiver,
                 hook_record s receiver arguments st = (Ok tt, push e st))
           /\ evidenceList (push e st) = (evidenceList st ++ [e])%list
           /\ (bindable this ->
               call (VHook s original) this arguments st =
               call original (bound_this (host st) this) arguments (push e st)
               /\ forall name,
                    original = VFunc name ->
                    fst (call (VHook s original) this arguments st) =
                    fst (host_apply name (bound_this (host st) this) arguments
                           (host st))
                    /\ host (snd (call (VHook s original) this arguments st)) =
                       snd (host_apply name (bound_this (host st) this)
                              arguments (host st))
                    /\ evidenceList
                         (snd (call (VHook s original) this arguments st)) =
                       (evidenceList st ++ [e])%list)
     | _ =>
         (forall receiver, hook_record s receiver arguments st = (Ok tt, st))
         /\ (bindable this ->
             call (VHook s original) this arguments st =
             call original (bound_this (host st) this) arguments st
             /\ forall name,
                  original = VFunc name ->
                  fst (call (VHook s original) this arguments st) =
                  fst (host_apply name (bound_this (host st) this) arguments
                         (host st))
                  /\ host (snd (call (VHook s original) this arguments st)) =
                     snd (host_apply name (bound_this (host st) this) arguments
                            (host st))
                  /\ evidenceList
                       (snd (call (VHook s original) this arguments st)) =
                     evidenceList st)
     end.
Proof.
  intros Hs. split.
  { destruct Hs as [-> | ->]; reflexivity. }
  destruct (nth 0 arguments VUndefined) as [| |b|n|code|props|f|s' o] eqn:Ea.
  5: {
    assert (Hc : forall receiver, instrumented_call s receiver arguments).
    { intros receiver. destruct Hs as [-> | ->]; simpl; now rewrite Ea. }
    destruct (hook_record_instrumented s this arguments st (Hc this))
      as (e & Hr & Hid & Hty & Hsev & Hsn & _).
    assert (Hany : forall receiver,
               hook_record s receiver arguments st = (Ok tt, push e st)).
    { intros receiver. rewrite <- Hr.
      destruct Hs as [-> | ->]; reflexivity. }
    assert (Hcall : call (VHook s original) this arguments st =
                    call original (bound_this (host st) this) arguments
                      (push e st)).
    { rewrite (call_hook _ _ _ _ _ _ (Hany _)).
      now rewrite (forwarded_instrumented s _ arguments (Hc this)). }
    exists e.
    split; [rewrite Hty; destruct Hs as [-> | ->]; reflexivity|].
    split; [rewrite Hsev; destruct Hs as [-> | ->]; reflexivity|].
    split; [rewrite Hsn; unfold snippet_source, arg;
            destruct Hs as [-> | ->]; now rewrite Ea|].
    split; [exact Hid|]. split; [exact Hany|]. split; [reflexivity|].
    intros _. split; [exact Hcall|].
    intros name ->. rewrite Hcall, call_host. repeat split. }
  all: assert (Hr : forall receiver,
                 hook_record s receiver arguments st = (Ok tt, st))
    by (intros receiver; destruct Hs as [-> | ->]; simpl; unfold arg;
        rewrite Ea; reflexivity).
  all: assert (Hcall : call (VHook s original) this arguments st =
                       call original (bound_this (host st) this) arguments st)
    by (rewrite (call_hook _ _ _ _ _ _ (Hr _));
        destruct Hs as [-> | ->]; reflexivity).
  all: split; [exact Hr|].
  all: intros _; split; [exact Hcall|].
  all: intros name ->; rewrite Hcall, call_host; repeat split.
Qed.

(** ** The static scan, record by record *)

Lemma set_store_same (st : page H) :
  set_store (evidenceList st) (evidenceIdCounter st) st = st.
Proof. now destruct st. Qed.

Lemma emits_ret : emits (H:=H) (ret tt) (fun _ => []).
Proof.
  intros st. exists [], (evidenceIdCounter st). split; [|reflexivity].
  unfold ret. now rewrite app_nil_r, set_store_same.
Qed.

Lemma emits_ext (m : M H unit) f g :
  (forall h, f h = g h) -> emits m f -> emits m g.
Proof.
  intros Hfg Hm st. destruct (Hm st) as (records & c & Hrun & Hsh).
  exists records, c. split; [exact Hrun | now rewrite <- Hfg].
Qed.

Lemma emits_seq (m k : M H unit) f g :
  emits m f -> emits k g ->
  emits (bind m (fun _ => k)) (fun h => (f h ++ g h)%list).
Proof.
  intros Hm Hk st. unfold bind.
  destruct (Hm st) as (r1 & c1 & -> & S1).
  destruct (Hk (set_store (evidenceList st ++ r1) c1 st)) as (r2 & c2 & -> & S2).
  exists (r1 ++ r2)%list, c2. split.
  - simpl. now rewrite app_assoc.
  - rewrite map_app, S1, S2. reflexivity.
Qed.

Lemma emits_query (k : list element -> M H unit) F :
  (forall doc, emits (k doc) (F doc)) ->
  emits (bind querySelectorAll_star k) (fun h => F (document_elements h) h).
Proof.
  intros Hk st. unfold bind, querySelectorAll_star.
  apply (Hk (document_elements (host st)) st).
Qed.

Lemma emits_forEach_from {A} (g : A -> nat -> M H unit) F (l : list A) :
  (forall x i, emits (g x i) (F x i)) ->
  forall start,
    emits (forEach_from g l start)
      (fun h => flat_map (fun p => F (snd p) (fst p) h) (indexed start l)).
Proof.
  intros Hg. induction l as [|x rest IH]; intros start.
  - apply emits_ret.
  - simpl forEach_from.
    eapply emits_ext; [|apply emits_seq; [apply Hg | apply (IH (S start))]].
    intros h. reflexivity.
Qed.

Lemma emits_record type severity text (location : string -> value) :
  (forall url, truthy (location url) = true) ->
  emits
    (bind window_location_href (fun url =>
       bind (addEvidence type severity (VStr text) (location url) VUndefined)
            (fun _ => ret tt)))
    (fun h => [(type, severity, location (location_href h),
                js_substring text 0 200)]).
Proof.
  intros Hl st. unfold bind, window_location_href.
  rewrite addEvidence_string.
  exists [record_for type severity text (location (location_href (host st)))
            VUndefined st], (evidenceIdCounter st + 1).
  split; [reflexivity|].
  simpl. unfold shape_of, record_for, js_or. simpl. now rewrite Hl.
Qed.

Lemma flat_map_indexed_filter {A B} (q : A -> bool) (f : A -> B) (l : list A) :
  forall start,
    flat_map (fun p : nat * A => if q (snd p) then [f (snd p)] else [])
      (indexed start l) =
    map f (filter q l).
Proof.
  induction l as [|x rest IH]; intros start; [reflexivity|].
  unfold indexed in *. simpl. rewrite IH.
  now destruct (q x).
Qed.

Lemma emits_collectInlineEventHandler (elem : element) (index : nat)
  (attr : string) (i : nat) :
  emits (collectInlineEventHandler elem index attr i)
    (fun h =>
       if hasAttribute elem attr
       then [("inline-event-handler", "medium",
              handler_location (location_href h) elem attr index,
              js_substring (attr_snippet attr (getAttribute elem attr)) 0 200)]
       else []).
Proof.
  unfold collectInlineEventHandler.
  destruct (hasAttribute elem attr); [|apply emits_ret].
  apply (emits_record "inline-event-handler" "medium" _
           (fun url => handler_location url elem attr index)).
  reflexivity.
Qed.

Lemma emits_collectInlineEventHandlers :
  emits collectInlineEventHandlers
    (fun h => flat_map (fun p => handler_shapes (snd p) (fst p) h)
                (indexed 0 (document_elements h))).
Proof.
  unfold collectInlineEventHandlers.
  apply (emits_query _
           (fun doc h => flat_map (fun p => handler_shapes (snd p) (fst p) h)
                           (indexed 0 doc))).
  intros doc. unfold forEach.
  apply emits_forEach_from. intros elem index.
  eapply emits_ext;
    [|apply emits_forEach_from; intros attr i;
      apply emits_collectInlineEventHandler].
  intros h. unfold handler_shapes.
  apply (flat_map_indexed_filter (hasAttribute elem)
           (fun attr =>
              ("inline-event-handler", "medium",
               handler_location (location_href h) elem attr index,
               js_substring (attr_snippet attr (getAttribute elem attr)) 0 200))).
Qed.

Lemma emits_collectJsProtocol : emits collectJsProtocol jsProtocol_shapes.
Proof.
  unfold collectJsProtocol.
  apply (emits_query _
           (fun doc h =>
              flat_map
                (fun p =>
                   let attr := if truthy (href (snd p)) then "href" else "src" in
                   [("javascript-protocol", "high",
                     jsProtocol_location (location_href h) (snd p) attr (fst p),
                     js_substring
                       (attr_snippet attr (getAttribute (snd p) attr)) 0 200)])
                (indexed 0 (filter matches_jsProtocol doc)))).
  intros doc. unfold forEach.
  apply (emits_forEach_from collectJsProtocolElement
           (fun elem index h =>
              let attr := if truthy (href elem) then "href" else "src" in
              [("javascript-protocol", "high",
                jsProtocol_location (location_href h) elem attr index,
                js_substring (attr_snippet attr (getAttribute elem attr)) 0 200)])).
  intros elem index. unfold collectJsProtocolElement.
  apply (emits_record "javascript-protocol" "high" _
           (fun url =>
              jsProtocol_location url elem
                (if truthy (href elem) then "href" else "src") index)).
  reflexivity.
Qed.

Lemma emits_collectInlineScripts : emits collectInlineScripts inlineScript_shapes.
Proof.
  unfold collectInlineScripts.
  apply (emits_query _
           (fun doc h =>
              flat_map
                (fun p =>
                   let content := script_content (snd p) in
                   if andb (negb (content =? "")%string)
                           (Nat.ltb 0 (String.length (trim content)))
                   then [("inline-script", "low",
                          inlineScript_location (location_href h) (fst p) content,
                          js_substring content 0 200)]
                   else [])
                (indexed 0 (filter matches_inlineScript doc)))).
  intros doc. unfold forEach.
  apply (emits_forEach_from collectInlineScript
           (fun script index h =>
              let content := script_content script in
              if andb (negb (content =? "")%string)
                      (Nat.ltb 0 (String.length (trim content)))
              then [("inline-script", "low",
                     inlineScript_location (location_href h) index content,
                     js_substring content 0 200)]
              else [])).
  intros script index. unfold collectInlineScript.
  destruct (andb _ _); [|apply emits_ret].
  apply (emits_record "inline-script" "low" _
           (fun url => inlineScript_location url index (script_content script))).
  reflexivity.
Qed.

Lemma emits_collectStaticSignals : emits collectStaticSignals static_shapes.
Proof.
  unfold collectStaticSignals, static_shapes.
  apply emits_seq; [apply emits_collectInlineEventHandlers|].
  apply emits_seq; [apply emits_collectJsProtocol | apply emits_collectInlineScripts].
Qed.

Lemma appended_emits (m : M H unit) shapes (st : page H) :
  emits m shapes -> map shape_of (appended m st) = shapes (host st).
Proof.
  intros Hm. destruct (Hm st) as (records & c & Hrun & Hsh).
  unfold appended. rewrite Hrun. simpl.
  rewrite skipn_app, Nat.sub_diag, skipn_all. simpl. exact Hsh.
Qed.

(** ** Lists and attribute names *)

Lemma map_filter_comm {A B} (f : A -> B) (q : B -> bool) (l : list A) :
  map f (filter (fun x => q (f x)) l) = filter q (map f l).
Proof.
  induction l as [|x rest IH]; [reflexivity|].
  simpl. destruct (q (f x)); simpl; now rewrite IH.
Qed.

Lemma filter_all {A} (q : A -> bool) (l : list A) :
  (forall x, In x l -> q x = true) -> filter q l = l.
Proof.
  induction l as [|x rest IH]; intros Hq; [reflexivity|].
  simpl. rewrite (Hq x (or_introl eq_refl)). f_equal.
  apply IH. intros y Hy. apply Hq. now right.
Qed.

Lemma filter_none {A} (q : A -> bool) (l : list A) :
  (forall x, In x l -> q x = false) -> filter q l = [].
Proof.
  induction l as [|x rest IH]; intros Hq; [reflexivity|].
  simpl. rewrite (Hq x (or_introl eq_refl)).
  apply IH. intros y Hy. apply Hq. now right.
Qed.

Lemma filter_flat_map_none {A B} (q : B -> bool) (g : A -> list B) (l : list A) :
  (forall x, In x l -> filter q (g x) = []) -> filter q (flat_map g l) = [].
Proof.
  induction l as [|x rest IH]; intros Hq; [reflexivity|].
  simpl. rewrite filter_app, (Hq x (or_introl eq_refl)). simpl.
  apply IH. intros y Hy. apply Hq. now right.
Qed.

Lemma indexed_bound {A} (l : list A) (start : nat) (p : nat * A) :
  In p (indexed start l) -> (start <= fst p)%nat.
Proof.
  destruct p as [i x]. intros Hin. unfold indexed in Hin.
  apply in_combine_l in Hin. apply in_seq in Hin. simpl. lia.
Qed.

Lemma existsb_eqb_In (x : string) (l : list string) :
  existsb (String.eqb x) l = true <-> In x l.
Proof.
  rewrite existsb_exists. split.
  - intros (y & Hy & Heq). apply String.eqb_eq in Heq. now subst.
  - intros Hin. exists x. split; [exact Hin | apply String.eqb_refl].
Qed.

Lemma hasAttribute_In (elem : element) (attr : string) :
  hasAttribute elem attr = true <-> In attr (map fst (attributes elem)).
Proof.
  unfold hasAttribute. rewrite existsb_exists, in_map_iff. split.
  - intros (p & Hp & Heq). apply String.eqb_eq in Heq. now exists p.
  - intros (p & Heq & Hp). exists p. split; [exact Hp|].
    rewrite Heq. apply String.eqb_refl.
Qed.

Lemma getAttribute_NoDup (elem : element) (attr value : string) :
  NoDup (map fst (attributes elem)) ->
  In (attr, value) (attributes elem) ->
  getAttribute elem attr = Some value.
Proof.
  unfold getAttribute. induction (attributes elem) as [|[n v] rest IH];
    intros Hnd Hin; [contradiction|].
  simpl in *. inversion Hnd as [|? ? Hnotin Hnd']; subst.
  destruct Hin as [Heq | Hin].
  - inversion Heq; subst. now rewrite String.eqb_refl.
  - destruct (String.eqb_spec n attr) as [-> | Hne].
    + elim Hnotin. apply in_map_iff. now exists (attr, value).
    + now apply IH.
Qed.

Lemma NoDup_inlineEventAttrs : NoDup inlineEventAttrs.
Proof.
  unfold inlineEventAttrs.
  repeat (constructor; [simpl; intuition discriminate|]).
  constructor.
Qed.

Lemma handler_count (elem : element) :
  NoDup (map fst (attributes elem)) ->
  List.length (filter (hasAttribute elem) inlineEventAttrs) =
  List.length (handler_attributes elem).
Proof.
  intros Hnd. unfold handler_attributes.
  rewrite <- (length_map fst (filter _ (attributes elem))).
  rewrite (map_filter_comm fst (fun n => existsb (String.eqb n) inlineEventAttrs)).
  apply Permutation_length, NoDup_Permutation.
  - apply NoDup_filter, NoDup_inlineEventAttrs.
  - now apply NoDup_filter.
  - intros x. rewrite !filter_In, hasAttribute_In, existsb_eqb_In. tauto.
Qed.

Lemma append_cancel_l (p a b : string) : (p ++ a = p ++ b)%string -> a = b.
Proof.
  induction p as [|c p IH]; simpl; intros Heq; [exact Heq|].
  inversion Heq. now apply IH.
Qed.

Lemma append_cancel_bracket (a b : string) : (a ++ "]" = b ++ "]")%string -> a = b.
Proof.
  revert b. induction a as [|c a IH]; intros [|d b] Heq; simpl in Heq.
  - reflexivity.
  - inversion Heq as [[Hc Hr]]. destruct b; discriminate Hr.
  - inversion Heq as [[Hc Hr]]. destruct a; discriminate Hr.
  - inversion Heq. f_equal. now apply IH.
Qed.

Lemma handler_location_inj url elem index (a b : string) :
  handler_location url elem a index = handler_location url elem b index -> a = b.
Proof.
  unfold handler_location. intros Heq. inversion Heq as [Hsel].
  apply append_cancel_l in Hsel. simpl in Hsel. inversion Hsel as [Hab].
  now apply append_cancel_bracket.
Qed.

(** ** The handler records of one element *)

Lemma handler_shapes_kept elem index (h : H) :
  filter (is_handler_shape_at index) (handler_shapes elem index h) =
  handler_shapes elem index h.
Proof.
  apply filter_all. intros x Hx. unfold handler_shapes in Hx.
  apply in_map_iff in Hx. destruct Hx as (attr & <- & _).
  simpl. apply Z.eqb_refl.
Qed.

Lemma handler_shapes_dropped elem index j (h : H) :
  j <> index ->
  filter (is_handler_shape_at index) (handler_shapes elem j h) = [].
Proof.
  intros Hne. apply filter_none. intros x Hx. unfold handler_shapes in Hx.
  apply in_map_iff in Hx. destruct Hx as (attr & <- & _).
  simpl. apply Z.eqb_neq. lia.
Qed.

Lemma handler_shapes_at (h : H) (l : list element) :
  forall start k elem,
    nth_error l k = Some elem ->
    filter (is_handler_shape_at (start + k))
      (flat_map (fun p => handler_shapes (snd p) (fst p) h) (indexed start l)) =
    handler_shapes elem (start + k) h.
Proof.
  induction l as [|x rest IH]; intros start k elem Hk.
  - destruct k; discriminate Hk.
  - change (indexed start (x :: rest)) with ((start, x) :: indexed (S start) rest).
    simpl flat_map. rewrite filter_app. destruct k as [|k]; simpl in Hk.
    + inversion Hk; subst x. rewrite Nat.add_0_r, handler_shapes_kept.
      rewrite filter_flat_map_none; [apply app_nil_r|].
      intros p Hp. apply handler_shapes_dropped.
      apply indexed_bound in Hp. lia.
    + rewrite handler_shapes_dropped by lia. simpl.
      replace (start + S k)%nat with (S start + k)%nat by lia.
      now apply IH.
Qed.

Lemma jsProtocol_shapes_dropped index (h : H) :
  filter (is_handler_shape_at index) (jsProtocol_shapes h) = [].
Proof.
  unfold jsProtocol_shapes. apply filter_flat_map_none. intros p _. reflexivity.
Qed.

Lemma inlineScript_shapes_dropped index (h : H) :
  filter (is_handler_shape_at index) (inlineScript_shapes h) = [].
Proof.
  unfold inlineScript_shapes. apply filter_flat_map_none. intros p _.
  simpl. now destruct (andb _ _).
Qed.

Lemma handler_shapes_of_attribute elem index (h : H) :
  NoDup (map fst (attributes elem)) ->
  forall x,
    In x (handler_shapes elem index h) <->
    exists attr value,
      In (attr, value) (handler_attributes elem)
      /\ x = handler_shape (location_href h) elem index attr value.
Proof.
  intros Hnd x. unfold handler_shapes, handler_attributes.
  rewrite in_map_iff. split.
  - intros (attr & <- & Hin). apply filter_In in Hin. destruct Hin as [Hl Hh].
    apply hasAttribute_In, in_map_iff in Hh. destruct Hh as ([n v] & Hn & Hp).
    simpl in Hn. subst n. exists attr, v. split.
    + apply filter_In. split; [exact Hp|].
      cbn [fst]. now apply existsb_eqb_In.
    + now rewrite (getAttribute_NoDup elem attr v Hnd Hp).
  - intros (attr & value & Hin & ->). apply filter_In in Hin.
    destruct Hin as [Hp Hl]. cbn [fst] in Hl. apply existsb_eqb_In in Hl.
    exists attr. split.
    + now rewrite (getAttribute_NoDup elem attr value Hnd Hp).
    + apply filter_In. split; [exact Hl|].
      apply hasAttribute_In, in_map_iff. now exists (attr, value).
Qed.


Lemma installed_set_store (s : sink) l c (st : page H) :
  installed s (set_store l c st) = installed s st.
Proof. now destruct s. Qed.

Lemma installed_initialize (s : sink) (st : page H) :
  truthy (installed s st) = true ->
  installed s (snd (initialize st)) = VHook s (installed s st).
Proof.
  intros Ht. unfold initialize, bind.
  destruct (String.eqb _ _).
  - unfold addEventListener_DOMContentLoaded.
    rewrite installed_after_hook; destruct s; solve [reflexivity | exact Ht].
  - destruct (emits_collectStaticSignals st) as (records & c & -> & _).
    rewrite installed_after_hook; rewrite installed_set_store;
      [reflexivity | exact Ht].
Qed.

Lemma initialize_result (st : page H) :
  fst (initialize st) = Ok tt /\ host (snd (initialize st)) = host st.
Proof.
  unfold initialize, bind.
  destruct (String.eqb _ _); [split; reflexivity|].
  destruct (emits_collectStaticSignals st) as (records & c & -> & _).
  split; reflexivity.
Qed.

Lemma executeScript_declared (t : tab H) :
  declared t = true -> executeScript t = (Thrown SyntaxError, t).
Proof. intros Hd. unfold executeScript. now rewrite Hd. Qed.

Lemma executeScript_fresh (t : tab H) :
  declared t = false ->
  executeScript t =
  (Ok tt, {| declared := true; tab_page := snd (content_script (tab_page t)) |}).
Proof.
  intros Hd. unfold executeScript. rewrite Hd.
  assert (Hr := proj1 (initialize_result (set_store [] 0 (tab_page t)))).
  unfold content_script.
  destruct (initialize (set_store [] 0 (tab_page t))) as [r st].
  simpl in Hr. now subst r.
Qed.

Lemma loads_again (n : nat) (t : tab H) : loads (S n) t = loads 1 t.
Proof.
  induction n as [|n IH]; [reflexivity|].
  change (loads (S (S n)) t) with (snd (executeScript (loads (S n) t))).
  rewrite IH. cbn [loads].
  destruct (declared t) eqn:Hd.
  - rewrite (executeScript_declared t Hd). cbn [snd].
    now rewrite (executeScript_declared t Hd).
  - rewrite (executeScript_fresh t Hd). cbn [snd].
    now rewrite executeScript_declared by reflexivity.
Qed.


End ContentScriptFacts.

(** ** The popup heuristic *)

Lemma weights_by_severity (items : list Evidence.t) :
  fold_right Z.add 0 (map weight_of items) =
  10 * severity_count "high" items
  + 5 * severity_count "medium" items
  + 2 * severity_count "low" items.
Proof.
  unfold severity_count. induction items as [|r rest IH]; [reflexivity|].
  cbn [map fold_right count_occ]. rewrite IH.
  unfold weight_of.
  destruct (String.eqb_spec (Evidence.severity r) "high") as [-> | Hh];
    [|destruct (String.eqb_spec (Evidence.severity r) "medium") as [-> | Hm];
      [|destruct (String.eqb_spec (Evidence.severity r) "low") as [-> | Hl]]];
    repeat match goal with
           | |- context [string_dec ?a ?b] =>
               destruct (string_dec a b); try congruence
           end;
    rewrite ?Nat2Z.inj_succ; lia.
Qed.

Lemma severity_count_perm (severity : string) (items items' : list Evidence.t) :
  Permutation (map Evidence.severity items) (map Evidence.severity items') ->
  severity_count severity items = severity_count severity items'.
Proof.
  intros Hp. unfold severity_count. f_equal.
  now apply (Permutation_count_occ string_dec).
Qed.

Lemma weights_perm (items items' : list Evidence.t) :
  Permutation items items' ->
  fold_right Z.add 0 (map weight_of items) =
  fold_right Z.add 0 (map weight_of items').
Proof.
  induction 1 as [|x l l' _ IH|x y l|l1 l2 l3 _ IH1 _ IH2]; simpl; lia.
Qed.

Lemma weight_of_bounds (r : Evidence.t) : 0 <= weight_of r <= 10.
Proof.
  unfold weight_of. repeat (destruct (String.eqb _ _); [lia|]). lia.
Qed.

Lemma weights_nonneg (items : list Evidence.t) :
  0 <= fold_right Z.add 0 (map weight_of items).
Proof.
  induction items as [|r rest IH]; simpl; [lia|].
  assert (Hb := weight_of_bounds r). lia.
Qed.

Lemma weights_bound (items : list Evidence.t) :
  fold_right Z.add 0 (map weight_of items) <= 10 * Z.of_nat (List.length items).
Proof.
  induction items as [|r rest IH]; [simpl; lia|].
  cbn [map fold_right List.length]. rewrite Nat2Z.inj_succ.
  assert (Hb := weight_of_bounds r). lia.
Qed.

Lemma known_severities_of_perm (severities : list string) (items : list Evidence.t) :
  Permutation (map Evidence.severity items) severities ->
  forallb known_severity severities = true ->
  known_severities items.
Proof.
  intros Hp Hk. apply Forall_forall. intros r Hr.
  rewrite forallb_forall in Hk. apply Hk.
  apply (Permutation_in _ Hp). now apply in_map.
Qed.

Section PopupRiskFacts.
Context {H : Type} `{HostH : Host H}.

Lemma known_severity_weight (r : Evidence.t) :
  known_severity (Evidence.severity r) = true ->
  js_or (member (Evidence.severity r) severityWeights) (VNum 0) =
  VNum (weight_of r).
Proof.
  unfold known_severity, weight_of. cbn [existsb].
  destruct (String.eqb_spec (Evidence.severity r) "high") as [-> | _];
    [reflexivity|].
  destruct (String.eqb_spec (Evidence.severity r) "medium") as [-> | _];
    [reflexivity|].
  destruct (String.eqb_spec (Evidence.severity r) "low") as [-> | _];
    [reflexivity|].
  discriminate.
Qed.

Lemma fold_left_weights (items : list Evidence.t) (acc : Z) :
  known_severities items ->
  fold_left
    (fun score item =>
       js_plus (H:=H) score
         (js_or (member (Evidence.severity item) severityWeights) (VNum 0)))
    items (VNum acc) =
  VNum (acc + fold_right Z.add 0 (map weight_of items)).
Proof.
  intros Hk. revert acc.
  induction Hk as [|r rest Hr _ IH]; intros acc; cbn [fold_left map fold_right].
  - f_equal. lia.
  - rewrite (known_severity_weight r Hr). cbn [js_plus].
    rewrite IH. f_equal. lia.
Qed.

Lemma calculateRiskLevel_total (evidence : option (list Evidence.t)) :
  known_severities (items_of evidence) ->
  calculateRiskLevel (H:=H) evidence =
  {| level := quick_level (fold_right Z.add 0 (map weight_of (items_of evidence)));
     score := VNum (fold_right Z.add 0 (map weight_of (items_of evidence))) |}.
Proof.
  intros Hk. destruct evidence as [[|r rest]|]; try reflexivity.
  unfold calculateRiskLevel, items_of.
  rewrite (fold_left_weights (r :: rest) 0 Hk), Z.add_0_l. reflexivity.
Qed.

(** C8. On records whose severity is one of the three of the data model,
    the popup's quick score is the sum over the records of the weight of
    their severity, high = 10, medium = 5, low = 2, that is ten times the
    number of high records plus five times the medium ones plus twice the
    low ones. Two high records and one medium record, in any order, give
    the score 25 and the level medium. *)
Theorem popup_score_is_severity_sum (evidence : option (list Evidence.t)) :
  member "high" severityWeights = VNum 10
  /\ member "medium" severityWeights = VNum 5
  /\ member "low" severityWeights = VNum 2
  /\ (known_severities (items_of evidence) ->
      score (calculateRiskLevel (H:=H) evidence) =
      VNum (fold_right Z.add 0 (map weight_of (items_of evidence)))
      /\ score (calculateRiskLevel (H:=H) evidence) =
         VNum (10 * severity_count "high" (items_of evidence)
               + 5 * severity_count "medium" (items_of evidence)
               + 2 * severity_count "low" (items_of evidence)))
  /\ (Permutation (map Evidence.severity (items_of evidence))
        ["high"; "high"; "medium"] ->
      calculateRiskLevel (H:=H) evidence = {| level := "medium"; score := VNum 25 |}).
Proof.
  repeat (split; [reflexivity|]).
  split.
  - intros Hk. rewrite (calculateRiskLevel_total evidence Hk). cbn [score].
    split; [reflexivity|]. now rewrite weights_by_severity.
  - intros Hp.
    rewrite (calculateRiskLevel_total evidence
               (known_severities_of_perm _ _ Hp eq_refl)).
    rewrite weights_by_severity.
    rewrite (severity_count_perm "high" _ [sample "" "high"; sample "" "high"; sample "" "medium"] Hp).
    rewrite (severity_count_perm "medium" _ [sample "" "high"; sample "" "high"; sample "" "medium"] Hp).
    rewrite (severity_count_perm "low" _ [sample "" "high"; sample "" "high"; sample "" "medium"] Hp).
    reflexivity.
Qed.

(** ** The scoring engine of the service *)

Lemma raw_score_perm (c : Service.catalog) (items items' : list Evidence.t) :
  Permutation items items' ->
  (Service.raw_score c items == Service.raw_score c items')%Q.
Proof.
  induction 1 as [|x l l' _ IH|x y l|l1 l2 l3 _ IH1 _ IH2]; simpl.
  - reflexivity.
  - now rewrite IH.
  - ring.
  - now rewrite IH1.
Qed.

(** C2. Scoring does not depend on the order of the records. On two lists
    of evidence records that are permutations of each other, the popup
    heuristic [calculateRiskLevel] gives the same score and the same level
    (the records have one of the three severities of the data model), and
    the scoring engine of the service gives the same score and the same
    verdict: each score is a sum of one contribution for each record. *)
Theorem scoring_is_order_independent
  (c : Service.catalog) (evidence evidence' : list Evidence.t) :
  Permutation evidence evidence' ->
  (known_severities evidence ->
   calculateRiskLevel (H:=H) (Some evidence) =
   calculateRiskLevel (H:=H) (Some evidence'))
  /\ (Service.raw_score c evidence == Service.raw_score c evidence')%Q
  /\ Service.risk_score (Service.analyze c (Some evidence)) =
     Service.risk_score (Service.analyze c (Some evidence'))
  /\ Service.report_verdict (Service.analyze c (Some evidence)) =
     Service.report_verdict (Service.analyze c (Some evidence')).
Proof.
  intros Hp.
  assert (Hs : Service.risk_score_of c evidence = Service.risk_score_of c evidence').
  { unfold Service.risk_score_of. f_equal.
    apply Qfloor_comp. now apply raw_score_perm. }
  split; [|split; [|split]].
  - intros Hk.
    assert (Hk' : known_severities evidence')
      by (exact (Permutation_Forall Hp Hk)).
    rewrite (calculateRiskLevel_total (Some evidence) Hk).
    rewrite (calculateRiskLevel_total (Some evidence') Hk').
    cbn [items_of]. now rewrite (weights_perm _ _ Hp).
  - now apply raw_score_perm.
  - exact Hs.
  - simpl. now rewrite Hs.
Qed.

(** C3. Scoring an empty or unreadable evidence input does not fail and
    gives a whole report. The scoring engine of the service returns score 0,
    verdict Safe, no explanation lines and no supporting evidence, the same
    for an input that is not a list of records as for the empty list. The
    popup heuristic returns score 0 and the level low for an absent and for
    an empty list. *)
Theorem empty_evidence_scores_zero (c : Service.catalog) :
  calculateRiskLevel (H:=H) None = {| level := "low"; score := VNum 0 |}
  /\ calculateRiskLevel (H:=H) (Some []) = {| level := "low"; score := VNum 0 |}
  /\ Service.analyze c None = Service.analyze c (Some [])
  /\ Service.risk_score (Service.analyze c (Some [])) = 0
  /\ Service.report_verdict (Service.analyze c (Some [])) = Service.Safe
  /\ Service.explanation (Service.analyze c (Some [])) = []
  /\ Service.supporting_evidence (Service.analyze c (Some [])) = []
  /\ Service.summary (Service.analyze c (Some [])) =
     Service.summary_text c 0 0 Service.Safe.
Proof.
  split; [reflexivity|]. split; [reflexivity|].
  split; [reflexivity|]. split; [reflexivity|]. split; [reflexivity|].
  split; [|split; reflexivity].
  unfold Service.analyze, Service.explanation_of. cbn [Service.explanation].
  induction (Service.explanation_rules c) as [|rule rest IH]; [reflexivity|].
  simpl. exact IH.
Qed.

End PopupRiskFacts.

(** ** Concrete runs *)



Lemma scoring_is_order_independent_run :
  Permutation
    [sample "eval-call" "high"; sample "inline-script" "low"]
    [sample "inline-script" "low"; sample "eval-call" "high"]
  /\ known_severities [sample "eval-call" "high"; sample "inline-script" "low"]
  /\ calculateRiskLevel (H:=browser)
       (Some [sample "eval-call" "high"; sample "inline-script" "low"]) =
     calculateRiskLevel (H:=browser)
       (Some [sample "inline-script" "low"; sample "eval-call" "high"])
  /\ Service.risk_score
       (Service.analyze sample_catalog
          (Some [sample "eval-call" "high"; sample "inline-script" "low"])) =
     Service.risk_score
       (Service.analyze sample_catalog
          (Some [sample "inline-script" "low"; sample "eval-call" "high"])).
Proof.
  assert (Hk : known_severities
                 [sample "eval-call" "high"; sample "inline-script" "low"])
    by (repeat constructor).
  split; [apply perm_swap|]. split; [exact Hk|].
  destruct (scoring_is_order_independent (H:=browser) sample_catalog
              [sample "eval-call" "high"; sample "inline-script" "low"]
              [sample "inline-script" "low"; sample "eval-call" "high"]
              (perm_swap _ _ _))
    as (Hpopup & _ & Hscore & _).
  split; [exact (Hpopup Hk) | exact Hscore].
Defined.

Lemma snippet_capped_at_200_run :
  (200 < String.length (filler 300))%nat
  /\ without_substring (VStr (filler 300))
  /\ String.length
       (Evidence.snippet
          (record_for "inline-script" "low" (filler 300) VUndefined VUndefined
             (blank_page "complete" []))) = 200%nat
  /\ Forall plain_snippets sample_events
  /\ Forall (fun r => (String.length (Evidence.snippet r) <= 200)%nat)
       (evidenceList (session (blank_page "complete" sample_doc) sample_events))
  /\ script_content sample_script <> ""
  /\ trim (script_content sample_script) <> ""
  /\ exists e,
       collectInlineScript sample_script 0 (blank_page "complete" sample_doc) =
       (Ok tt, push e (blank_page "complete" sample_doc))
       /\ Evidence.snippet e = "var a = 1;"
       /\ exists props,
            Evidence.location e = VObj props
            /\ get_prop "length" props = VNum 10.
Proof.
  assert (Hlong : (200 < String.length (filler 300))%nat)
    by (apply Nat.ltb_lt; reflexivity).
  assert (Hplain : Forall plain_snippets sample_events)
    by (repeat constructor).
  assert (Hcontent : script_content sample_script <> "") by discriminate.
  assert (Htrim : trim (script_content sample_script) <> "") by discriminate.
  destruct (@snippet_capped_at_200 browser browser_host)
    as (Hcut & Hsession & Hscript).
  split; [exact Hlong|]. split; [exact I|].
  split; [|split; [exact Hplain|split; [|split; [exact Hcontent|split; [exact Htrim|]]]]].
  - destruct (Hcut "inline-script" "low" (VStr (filler 300)) VUndefined VUndefined
                (blank_page "complete" []) _ _ I
                (addEvidence_string "inline-script" "low" (filler 300)
                   VUndefined VUndefined (blank_page "complete" [])))
      as [_ Hlen].
    exact (proj1 (Hlen (filler 300) eq_refl Hlong)).
  - exact (Hsession (blank_page "complete" sample_doc) sample_events Hplain).
  - destruct (Hscript sample_script 0%nat (blank_page "complete" sample_doc)
                Hcontent Htrim)
      as (e & Hrun & _ & _ & Hsn & props & Hloc & Hlength).
    exists e. split; [exact Hrun|]. split; [exact Hsn|].
    exists props. split; [exact Hloc | exact Hlength].
Defined.

Lemma scheduler_records_only_text_run :
  (SetTimeout = SetTimeout \/ SetTimeout = SetInterval)
  /\ bindable VUndefined
  /\ (exists e,
        Evidence.type e = "settimeout-string"
        /\ Evidence.severity e = "high"
        /\ evidenceList
             (snd (call (VHook SetTimeout (VFunc "setTimeout")) VUndefined
                     [VStr "alert(1)"; VNum 0] (blank_page "complete" []))) =
           [e])
  /\ evidenceList
       (snd (call (VHook SetTimeout (VFunc "setTimeout")) VUndefined
               [VFunc "callback"; VNum 0] (blank_page "complete" []))) = [].
Proof.
  split; [now left|]. split; [exact I|]. split.
  - destruct (proj2 (scheduler_records_only_text SetTimeout (VFunc "setTimeout")
                       VUndefined [VStr "alert(1)"; VNum 0]
                       (blank_page "complete" []) (or_introl eq_refl)))
      as (e & Hty & Hsev & _ & _ & _ & _ & Hcall).
    exists e. split; [exact Hty|]. split; [exact Hsev|].
    exact (proj2 (proj2 (proj2 (Hcall I) "setTimeout" eq_refl))).
  - destruct (proj2 (scheduler_records_only_text SetTimeout (VFunc "setTimeout")
                       VUndefined [VFunc "callback"; VNum 0]
                       (blank_page "complete" []) (or_introl eq_refl)))
      as (_ & Hcall).
    exact (proj2 (proj2 (proj2 (Hcall I) "setTimeout" eq_refl))).
Defined.

Lemma sample_button_names : NoDup (map fst (attributes sample_button)).
Proof.
  simpl. repeat (constructor; [simpl; intuition discriminate|]). constructor.
Qed.


Lemma popup_score_is_severity_sum_run :
  Permutation
    (map Evidence.severity
       (items_of
          (Some [sample "eval-call" "high"; sample "innerhtml-set" "medium";
                 sample "javascript-protocol" "high"])))
    ["high"; "high"; "medium"]
  /\ known_severities
       (items_of
          (Some [sample "eval-call" "high"; sample "innerhtml-set" "medium";
                 sample "javascript-protocol" "high"]))
  /\ score
       (calculateRiskLevel (H:=browser)
          (Some [sample "eval-call" "high"; sample "innerhtml-set" "medium";
                 sample "javascript-protocol" "high"])) =
     VNum (10 * 2 + 5 * 1 + 2 * 0)
  /\ calculateRiskLevel (H:=browser)
       (Some [sample "eval-call" "high"; sample "innerhtml-set" "medium";
              sample "javascript-protocol" "high"]) =
     {| level := "medium"; score := VNum 25 |}.
Proof.
  assert (Hp : Permutation
                 (map Evidence.severity
                    (items_of
                       (Some [sample "eval-call" "high";
                              sample "innerhtml-set" "medium";
                              sample "javascript-protocol" "high"])))
                 ["high"; "high"; "medium"]).
  { simpl. apply perm_skip. apply perm_swap. }
  assert (Hk : known_severities
                 (items_of
                    (Some [sample "eval-call" "high";
                           sample "innerhtml-set" "medium";
                           sample "javascript-protocol" "high"])))
    by (repeat constructor).
  split; [exact Hp|]. split; [exact Hk|].
  destruct (popup_score_is_severity_sum (H:=browser)
              (Some [sample "eval-call" "high"; sample "innerhtml-set" "medium";
                     sample "javascript-protocol" "high"]))
    as (_ & _ & _ & Hsum & Hrun).
  split; [exact (proj2 (Hsum Hk)) | exact (Hrun Hp)].
Defined.


(** Names of inherited members where a severity or a type is expected: the
    score of five high records and one record of severity [constructor] is
    a text, and the level is low; a record of type [__proto__] gets no
    entry in the table of counts. *)
Lemma inherited_names_as_keys :
  calculateRiskLevel (H:=browser)
    (Some [sample "eval-call" "high"; sample "eval-call" "high";
           sample "eval-call" "high"; sample "eval-call" "high";
           sample "eval-call" "high"; sample "eval-call" "constructor"]) =
  {| level := "low"; score := VStr "50function () { [native code] }" |}
  /\ count_types (H:=browser) [sample "__proto__" "high"] = [].
Proof. split; reflexivity. Qed.

Lemma addEvidence_defaults_run :
  storable_snippet VNull
  /\ exists e,
       addEvidence "inline-script" "low" VNull VUndefined VUndefined
         (blank_page "complete" []) =
       (Ok e, push e (blank_page "complete" []))
       /\ Evidence.snippet e = ""
       /\ Evidence.location e =
          VObj [("url", VStr "https://example.com/"); ("selector", VNull)]
       /\ Evidence.stack e = VNull.
Proof.
  assert (Hs : storable_snippet VNull) by (left; left; reflexivity).
  split; [exact Hs|].
  destruct (addEvidence_defaults "inline-script" "low" VNull VUndefined VUndefined
              (blank_page "complete" []) Hs)
    as (e & Hrun & Hsn & Hloc & Hstack).
  exists e. split; [exact Hrun|]. split; [|split].
  - apply Hsn. left. reflexivity.
  - apply Hloc. right. reflexivity.
  - apply Hstack. reflexivity.
Defined.

(** ** More on the content script *)

Section ContentScriptMore.
Context {H : Type} `{HostH : Host H}.

Lemma addEvidence_cases type severity snippet location stack (st : page H) :
  (exists s,
      (snippet = VStr s \/ (truthy snippet = false /\ s = ""))
      /\ addEvidence type severity snippet location stack st =
         (Ok (record_for type severity s location stack st),
          push (record_for type severity s location stack st) st))
  \/ (truthy snippet = true /\ is_string snippet = false
      /\ addEvidence type severity snippet location stack st =
         (Thrown TypeError,
          set_store (evidenceList st) (evidenceIdCounter st + 1) st)).
Proof.
  destruct (truthy snippet) eqn:Ht.
  - destruct snippet as [| |b|n|s|props|name|s original];
      try discriminate Ht;
      try (right; split; [reflexivity|]; split; [reflexivity|];
           unfold addEvidence; rewrite Ht; reflexivity).
    left. exists s. split; [now left | apply addEvidence_string].
  - left. exists "". split; [now right | now apply addEvidence_falsy].
Qed.

(** X1. A snippet that is neither missing nor a string, and has no
    [substring] member of its own (a number other than 0, [true], a
    function, an object without that name), makes [addEvidence] throw a
    TypeError: nothing is stored, but the id has been taken, so the record
    stored next gets the id after the skipped one. *)
Theorem addEvidence_rejects_non_text
  type severity snippet location stack type' severity' s' location' stack'
  (st : page H) :
  truthy snippet = true ->
  is_string snippet = false ->
  without_substring snippet ->
  fst (addEvidence type severity snippet location stack st) = Thrown TypeError
  /\ evidenceList (snd (addEvidence type severity snippet location stack st)) =
     evidenceList st
  /\ evidenceIdCounter (snd (addEvidence type severity snippet location stack st)) =
     evidenceIdCounter st + 1
  /\ exists e,
       fst (addEvidence type' severity' (VStr s') location' stack'
              (snd (addEvidence type severity snippet location stack st))) = Ok e
       /\ Evidence.id e = evidenceIdCounter st + 2.
Proof.
  intros Ht Hs _.
  destruct (addEvidence_cases type severity snippet location stack st)
    as [(s & [-> | [Hf _]] & _) | (_ & _ & ->)].
  - discriminate Hs.
  - rewrite Ht in Hf. discriminate Hf.
  - repeat split. rewrite addEvidence_string.
    eexists. split; [reflexivity|]. simpl. lia.
Qed.

(** ** Properties all stored records share *)

Lemma keeps_ret P {A} (a : A) : keeps P (@ret H A a).
Proof. intros st Hst. exact Hst. Qed.

Lemma keeps_throw P {A} (e : value) : keeps P (@throw H A e).
Proof. intros st Hst. exact Hst. Qed.

Lemma keeps_bind P {A B} (m : M H A) (k : A -> M H B) :
  keeps P m -> (forall a, keeps P (k a)) -> keeps P (bind m k).
Proof.
  intros Hm Hk st Hst. unfold bind.
  specialize (Hm st Hst). destruct (m st) as [[a|e] st1]; simpl in *.
  - now apply Hk.
  - exact Hm.
Qed.

Lemma keeps_addEvidence (P : Evidence.t -> Prop) type severity snippet location stack :
  (forall id time loc text,
      P (Evidence.Build id time type severity loc text (default_null stack))) ->
  keeps P (addEvidence (H:=H) type severity snippet location stack).
Proof.
  intros HP st Hst.
  destruct (addEvidence_cases type severity snippet location stack st)
    as [(s & _ & ->) | (_ & _ & ->)]; simpl.
  - apply Forall_app. split; [exact Hst|].
    constructor; [apply HP | constructor].
  - exact Hst.
Qed.

Lemma keeps_window_location_href P : keeps P (@window_location_href H _).
Proof. intros st Hst. exact Hst. Qed.

Lemma keeps_new_Error_stack P : keeps P (@new_Error_stack H _).
Proof. intros st Hst. exact Hst. Qed.

Lemma keeps_querySelectorAll_star P : keeps P (@querySelectorAll_star H _).
Proof. intros st Hst. exact Hst. Qed.

Lemma keeps_this_selector P (this : value) : keeps P (this_selector (H:=H) this).
Proof.
  destruct this as [| |b|n|s|props|name|s original]; simpl;
    try apply keeps_throw; try apply keeps_ret.
  destruct (truthy (get_prop "tagName" props)); [|apply keeps_ret].
  destruct (get_prop "tagName" props); try apply keeps_throw; apply keeps_ret.
Qed.

Lemma keeps_forEach_from P {A} (f : A -> nat -> M H unit) (l : list A) :
  (forall x i, keeps P (f x i)) -> forall i, keeps P (forEach_from f l i).
Proof.
  intros Hf. induction l as [|x rest IH]; intros i; simpl.
  - apply keeps_ret.
  - apply keeps_bind; [apply Hf | intros _; apply IH].
Qed.

Lemma default_null_defined (v : value) : default_null v <> VUndefined.
Proof. destruct v; discriminate. Qed.

Ltac record_ok_table :=
  intros; split; [reflexivity|];
  split; [try (intros Hstatic; discriminate Hstatic); try reflexivity
         | apply default_null_defined].

Ltac keeps_steps :=
  repeat first
    [ apply keeps_ret
    | apply keeps_throw
    | apply keeps_window_location_href
    | apply keeps_new_Error_stack
    | apply keeps_this_selector
    | apply keeps_addEvidence; record_ok_table
    | apply keeps_bind; [|intros ?] ].

Lemma keeps_collectStaticSignals : keeps record_ok (@collectStaticSignals H _).
Proof.
  unfold collectStaticSignals, collectInlineEventHandlers, collectJsProtocol,
    collectInlineScripts, forEach.
  apply keeps_bind; [|intros _; apply keeps_bind; [|intros _]];
    (apply keeps_bind; [apply keeps_querySelectorAll_star | intros doc]);
    apply keeps_forEach_from; intros elem index.
  - apply keeps_forEach_from. intros attr i. unfold collectInlineEventHandler.
    destruct (hasAttribute elem attr); keeps_steps.
  - unfold collectJsProtocolElement. keeps_steps.
  - unfold collectInlineScript. destruct (andb _ _); keeps_steps.
Qed.

Lemma keeps_hook_record (s : sink) (this : value) (arguments : list value) :
  keeps record_ok (hook_record (H:=H) s this arguments).
Proof.
  destruct s; simpl; try solve [keeps_steps];
    destruct (is_string (arg 0 arguments)); keeps_steps.
Qed.

Lemma keeps_call (f this : value) (arguments : list value) :
  keeps record_ok (call (H:=H) f this arguments).
Proof.
  revert this arguments.
  induction f as [| |b|n|s|props|name|s original IH]; intros this arguments;
    simpl; try apply keeps_throw.
  - intros st Hst. now destruct (host_apply name this arguments (host st)).
  - intros st.
    apply (keeps_bind record_ok
             (hook_record s (bound_this (host st) this) arguments)
             (fun _ => call original (bound_this (host st) this)
                         (forwarded s arguments)));
      [apply keeps_hook_record | intros _; apply IH].
Qed.

Lemma keeps_repeatM P (n : nat) (m : M H unit) : keeps P m -> keeps P (repeatM n m).
Proof.
  intros Hm. induction n as [|n IH]; simpl.
  - apply keeps_ret.
  - apply keeps_bind; [exact Hm | intros _; exact IH].
Qed.

Lemma keeps_initialize : keeps record_ok (@initialize H _).
Proof.
  intros st Hst. unfold initialize.
  apply (keeps_bind record_ok _ (fun _ => hookRuntimeSinks)); [| |exact Hst].
  - destruct (String.eqb _ _).
    + intros st' Hst'. exact Hst'.
    + apply keeps_collectStaticSignals.
  - intros _ st' Hst'. exact Hst'.
Qed.

Lemma record_ok_run (events : list event) (st : page H) :
  forallb (fun e => negb (direct_add e)) events = true ->
  Forall record_ok (evidenceList st) ->
  Forall record_ok (evidenceList (run events st)).
Proof.
  revert st. induction events as [|e rest IH]; intros st Hev Hst; [exact Hst|].
  simpl in Hev. apply andb_prop in Hev. destruct Hev as [He Hrest].
  simpl. apply IH; [exact Hrest|].
  destruct e; simpl; try discriminate He.
  - now apply keeps_repeatM; [apply keeps_collectStaticSignals|].
  - now apply keeps_call.
  - now apply keeps_call.
  - exact Hst.
  - exact Hst.
Qed.

(** X2. In a page session where [addEvidence] is called by the scanner and
    the wrappers only, every stored record has the severity that belongs to
    its type (twelve types, three severities), a static finding has a
    [null] stack, and no stack is [undefined]. *)
Theorem severity_follows_type (env : page H) (events : list event) :
  forallb (fun e => negb (direct_add e)) events = true ->
  Forall record_ok (evidenceList (session env events)).
Proof.
  intros Hev. unfold session. apply record_ok_run; [exact Hev|].
  unfold content_script. apply keeps_initialize. constructor.
Qed.

End ContentScriptMore.

Lemma severity_follows_type_run :
  forallb (fun e => negb (direct_add e)) sample_events = true
  /\ Forall record_ok
       (evidenceList (session (blank_page "complete" sample_doc) sample_events)).
Proof.
  split; [reflexivity|].
  exact (severity_follows_type (blank_page "complete" sample_doc) sample_events
           eq_refl).
Defined.

Lemma addEvidence_rejects_non_text_run :
  truthy (VNum 5) = true
  /\ is_string (VNum 5) = false
  /\ without_substring (VNum 5)
  /\ fst (addEvidence "eval-call" "high" (VNum 5) VUndefined VUndefined
            (blank_page "complete" [])) = Thrown TypeError
  /\ evidenceIdCounter
       (snd (addEvidence "eval-call" "high" (VNum 5) VUndefined VUndefined
               (blank_page "complete" []))) = 1.
Proof.
  split; [reflexivity|]. split; [reflexivity|]. split; [exact I|].
  destruct (addEvidence_rejects_non_text "eval-call" "high" (VNum 5) VUndefined
              VUndefined "eval-call" "high" "x" VUndefined VUndefined
              (blank_page "complete" []) eq_refl eq_refl I)
    as (Hthrown & _ & Hcounter & _).
  split; [exact Hthrown | exact Hcounter].
Defined.

(** ** Trimming *)

Lemma trimEnd_empty (s : string) : trimEnd s = "" <-> has_text s = false.
Proof.
  induction s as [|c r IH]; cbn [trimEnd has_text]; [tauto|].
  destruct (trimEnd r) as [|c' r'].
  - assert (Hr : has_text r = false) by now apply IH.
    rewrite Hr, orb_false_r.
    destruct (is_space c); simpl; split; intros Hx; try reflexivity;
      discriminate Hx.
  - assert (Hr : has_text r = true).
    { destruct (has_text r); [reflexivity|].
      assert (Hx : String c' r' = "") by now apply IH. discriminate Hx. }
    rewrite Hr, orb_true_r. split; intros Hx; discriminate Hx.
Qed.

Lemma has_text_trimStart (s : string) : has_text (trimStart s) = has_text s.
Proof.
  induction s as [|c r IH]; [reflexivity|].
  cbn [trimStart has_text]. destruct (is_space c) eqn:Ec.
  - exact IH.
  - cbn [has_text]. now rewrite Ec.
Qed.

Lemma trim_has_text (s : string) :
  andb (negb (s =? "")%string) (Nat.ltb 0 (String.length (trim s))) = has_text s.
Proof.
  unfold trim.
  destruct (has_text s) eqn:Ht.
  - apply andb_true_intro. split.
    + destruct s; [discriminate Ht | reflexivity].
    + apply Nat.ltb_lt.
      destruct (trimEnd (trimStart s)) eqn:Et; [|simpl; lia].
      apply trimEnd_empty in Et. rewrite has_text_trimStart, Ht in Et.
      discriminate Et.
  - apply andb_false_intro2. apply Nat.ltb_ge.
    assert (Et : trimEnd (trimStart s) = "").
    { apply trimEnd_empty. now rewrite has_text_trimStart. }
    rewrite Et. simpl. lia.
Qed.

(** ** Positions *)

Lemma indexed_length {A} (l : list A) (start : nat) :
  List.length (indexed start l) = List.length l.
Proof.
  unfold indexed. rewrite length_combine, length_seq. apply Nat.min_id.
Qed.

Lemma In_indexed {A} (l : list A) :
  forall start i x,
    In (i, x) (indexed start l) <->
    (start <= i)%nat /\ nth_error l (i - start) = Some x.
Proof.
  induction l as [|y rest IH]; intros start i x.
  - simpl. split; [contradiction|]. intros [_ Hn].
    destruct (i - start)%nat; discriminate Hn.
  - change (indexed start (y :: rest)) with ((start, y) :: indexed (S start) rest).
    simpl. rewrite IH. split.
    + intros [Heq | [Hle Hn]].
      * inversion Heq; subst. split; [lia|]. now rewrite Nat.sub_diag.
      * split; [lia|].
        replace (i - start)%nat with (S (i - S start)) by lia. exact Hn.
    + intros [Hle Hn]. destruct (i - start)%nat as [|k] eqn:Ek.
      * left. simpl in Hn. inversion Hn. f_equal. lia.
      * right. split; [lia|].
        replace (i - S start)%nat with k by lia. exact Hn.
Qed.

Lemma nth_error_indexed {A} (l : list A) :
  forall start k,
    nth_error (indexed start l) k =
    option_map (fun x => ((start + k)%nat, x)) (nth_error l k).
Proof.
  induction l as [|y rest IH]; intros start k.
  - destruct k; reflexivity.
  - change (indexed start (y :: rest)) with ((start, y) :: indexed (S start) rest).
    destruct k as [|k]; simpl.
    + now rewrite Nat.add_0_r.
    + rewrite IH. now replace (S start + k)%nat with (start + S k)%nat by lia.
Qed.

Lemma flat_map_singleton {A B} (f : A -> B) (l : list A) :
  flat_map (fun x => [f x]) l = map f l.
Proof. induction l as [|x rest IH]; simpl; [reflexivity | now rewrite IH]. Qed.

Lemma flat_map_indexed_if {A B} (g : A -> bool) (f : nat * A -> B) (l : list A) :
  forall start,
    flat_map (fun p : nat * A => if g (snd p) then [f p] else []) (indexed start l) =
    map f (filter (fun p => g (snd p)) (indexed start l)).
Proof.
  intros start. induction (indexed start l) as [|p rest IH]; [reflexivity|].
  simpl. destruct (g (snd p)); simpl; now rewrite IH.
Qed.

Lemma filter_indexed_length {A} (g : A -> bool) (l : list A) :
  forall start,
    List.length (filter (fun p : nat * A => g (snd p)) (indexed start l)) =
    List.length (filter g l).
Proof.
  induction l as [|y rest IH]; intros start; [reflexivity|].
  change (indexed start (y :: rest)) with ((start, y) :: indexed (S start) rest).
  simpl. destruct (g y); simpl; now rewrite IH.
Qed.

Lemma map_constant_type {A} (t : string)
  (f : A -> string * string * value * string) (l : list A) :
  (forall x, type_of_shape (f x) = t) ->
  map type_of_shape (map f l) = repeat t (List.length l).
Proof.
  intros Hf. induction l as [|x rest IH]; simpl; [reflexivity|].
  now rewrite Hf, IH.
Qed.

(** ** The static scan as a whole *)

Section StaticScan.
Context {H : Type} `{HostH : Host H}.

Lemma handler_types (h : H) (l : list element) :
  forall start,
    map type_of_shape
      (flat_map (fun p => handler_shapes (snd p) (fst p) h) (indexed start l)) =
    repeat "inline-event-handler"
      (List.length
         (flat_map (fun elem => filter (hasAttribute elem) inlineEventAttrs) l)).
Proof.
  induction l as [|x rest IH]; intros start; [reflexivity|].
  change (indexed start (x :: rest)) with ((start, x) :: indexed (S start) rest).
  simpl flat_map. rewrite map_app, length_app, repeat_app, IH. f_equal.
  unfold handler_shapes. cbn [fst snd].
  now apply map_constant_type.
Qed.

Lemma jsProtocol_shapes_map (h : H) :
  jsProtocol_shapes h =
  map (fun p =>
         ("javascript-protocol", "high",
          jsProtocol_location (location_href h) (snd p)
            (if truthy (href (snd p)) then "href" else "src") (fst p),
          js_substring
            (attr_snippet (if truthy (href (snd p)) then "href" else "src")
               (getAttribute (snd p)
                  (if truthy (href (snd p)) then "href" else "src"))) 0 200))
      (indexed 0 (filter matches_jsProtocol (document_elements h))).
Proof. unfold jsProtocol_shapes. apply flat_map_singleton. Qed.

Lemma inlineScript_shapes_map (h : H) :
  inlineScript_shapes h =
  map (fun p =>
         ("inline-script", "low",
          inlineScript_location (location_href h) (fst p) (script_content (snd p)),
          js_substring (script_content (snd p)) 0 200))
      (filter (fun p => has_text (script_content (snd p)))
         (indexed 0 (filter matches_inlineScript (document_elements h)))).
Proof.
  unfold inlineScript_shapes.
  rewrite <- (flat_map_indexed_if (fun e => has_text (script_content e))).
  apply flat_map_ext. intros p. cbv zeta. now rewrite trim_has_text.
Qed.

Lemma static_types (h : H) :
  map type_of_shape (static_shapes h) =
  (repeat "inline-event-handler"
     (List.length
        (flat_map (fun elem => filter (hasAttribute elem) inlineEventAttrs)
           (document_elements h)))
   ++ repeat "javascript-protocol"
        (List.length (filter matches_jsProtocol (document_elements h)))
   ++ repeat "inline-script"
        (List.length
           (filter (fun script => has_text (script_content script))
              (filter matches_inlineScript (document_elements h)))))%list.
Proof.
  unfold static_shapes. rewrite !map_app, handler_types.
  rewrite jsProtocol_shapes_map, inlineScript_shapes_map.
  rewrite (map_constant_type "javascript-protocol") by reflexivity.
  rewrite (map_constant_type "inline-script") by reflexivity.
  rewrite indexed_length.
  now rewrite (filter_indexed_length (fun script => has_text (script_content script))).
Qed.


Lemma shapes_of_type (t : string) (l : list Evidence.t) :
  map shape_of (filter (fun r => (Evidence.type r =? t)%string) l) =
  filter (fun x => (type_of_shape x =? t)%string) (map shape_of l).
Proof. exact (map_filter_comm shape_of (fun x => (type_of_shape x =? t)%string) l). Qed.

Lemma filter_constant_type {A} (t t' : string)
  (f : A -> string * string * value * string) (l : list A) :
  (forall x, type_of_shape (f x) = t') ->
  filter (fun x => (type_of_shape x =? t)%string) (map f l) =
  if (t' =? t)%string then map f l else [].
Proof.
  intros Hf. destruct (t' =? t)%string eqn:Et.
  - apply filter_all. intros x Hx. apply in_map_iff in Hx.
    destruct Hx as (a & <- & _). now rewrite Hf.
  - apply filter_none. intros x Hx. apply in_map_iff in Hx.
    destruct Hx as (a & <- & _). now rewrite Hf.
Qed.

Lemma handler_shapes_other_type (t : string) (h : H) (l : list element) start :
  (t =? "inline-event-handler")%string = false ->
  filter (fun x => (type_of_shape x =? t)%string)
    (flat_map (fun p => handler_shapes (snd p) (fst p) h) (indexed start l)) = [].
Proof.
  intros Ht. apply filter_flat_map_none. intros p _. unfold handler_shapes.
  rewrite (filter_constant_type t "inline-event-handler") by reflexivity.
  now rewrite String.eqb_sym, Ht.
Qed.

Lemma static_jsProtocol (h : H) :
  filter (fun x => (type_of_shape x =? "javascript-protocol")%string)
    (static_shapes h) = jsProtocol_shapes h.
Proof.
  unfold static_shapes.
  rewrite !filter_app, handler_shapes_other_type by reflexivity.
  rewrite jsProtocol_shapes_map, inlineScript_shapes_map.
  rewrite (filter_constant_type _ "javascript-protocol") by reflexivity.
  rewrite (filter_constant_type _ "inline-script") by reflexivity.
  simpl. now rewrite app_nil_r.
Qed.

Lemma static_inlineScript (h : H) :
  filter (fun x => (type_of_shape x =? "inline-script")%string)
    (static_shapes h) = inlineScript_shapes h.
Proof.
  unfold static_shapes.
  rewrite !filter_app, handler_shapes_other_type by reflexivity.
  rewrite jsProtocol_shapes_map, inlineScript_shapes_map.
  rewrite (filter_constant_type _ "javascript-protocol") by reflexivity.
  rewrite (filter_constant_type _ "inline-script") by reflexivity.
  reflexivity.
Qed.



End StaticScan.


(** ** Installation and start-up *)

Section Installation.
Context {H : Type} `{HostH : Host H}.

(** X6. Where [Element.prototype] has no [innerHTML] accessor with a
    setter, the installation step leaves that property as it found it and
    goes on: every other sink that is present is wrapped, the step returns
    normally and the evidence store is untouched. *)
Theorem missing_setter_is_skipped (st : page H) :
  truthy (installed InnerHTMLSet st) = false ->
  fst (hookRuntimeSinks st) = Ok tt
  /\ innerHTML_desc (snd (hookRuntimeSinks st)) = innerHTML_desc st
  /\ evidenceList (snd (hookRuntimeSinks st)) = evidenceList st
  /\ forall s,
       s <> InnerHTMLSet ->
       truthy (installed s st) = true ->
       installed s (snd (hookRuntimeSinks st)) = VHook s (installed s st).
Proof.
  intros Hf. split; [reflexivity|]. split; [|split; [reflexivity|]].
  - simpl in *. destruct (innerHTML_desc st) as [d|]; [|reflexivity].
    simpl. now rewrite Hf.
  - intros s _ Ht. now apply installed_after_hook.
Qed.

Lemma hook_setter_getter (s : sink) (desc : option descriptor) (d : descriptor) :
  desc = Some d ->
  exists d', hook_setter s desc = Some d' /\ desc_get d' = desc_get d.
Proof.
  intros ->. simpl. destruct (truthy (desc_set d)); eexists; split; reflexivity.
Qed.




End Installation.

Lemma missing_setter_is_skipped_run :
  truthy (installed InnerHTMLSet legacy_page) = false
  /\ innerHTML_desc (snd (hookRuntimeSinks legacy_page)) = None
  /\ installed Eval (snd (hookRuntimeSinks legacy_page)) = VHook Eval (VFunc "eval").
Proof.
  split; [reflexivity|].
  destruct (missing_setter_is_skipped legacy_page eq_refl)
    as (_ & Hdesc & _ & Hrest).
  split; [exact Hdesc|].
  apply (Hrest Eval); [discriminate | reflexivity].
Defined.




(** ** Sorting *)

Section Sorting.
Context {A : Type}.
Variable comparefn : A -> A -> option Z.
Variable key : A -> Z.
Variable valid : A -> Prop.
Hypothesis comparefn_key :
  forall a b, valid a -> valid b ->
    comes_after (comparefn a b) = (key b <? key a).

Lemma sort_insert_perm (x : A) (l : list A) :
  Permutation (sort_insert comparefn x l) (x :: l).
Proof.
  induction l as [|y rest IH]; simpl; [apply Permutation_refl|].
  destruct (comes_after (comparefn x y)); [|apply Permutation_refl].
  eapply perm_trans; [apply perm_skip, IH | apply perm_swap].
Qed.

Lemma js_sort_perm (l : list A) : Permutation (js_sort comparefn l) l.
Proof.
  induction l as [|x rest IH]; simpl; [constructor|].
  eapply perm_trans; [apply sort_insert_perm | now apply perm_skip].
Qed.

Lemma js_sort_valid (l : list A) : Forall valid l -> Forall valid (js_sort comparefn l).
Proof.
  intros Hl. eapply Permutation_Forall; [|exact Hl].
  apply Permutation_sym, js_sort_perm.
Qed.

Lemma sort_insert_sorted (x : A) (l : list A) :
  valid x -> Forall valid l ->
  StronglySorted (fun a b => key a <= key b) l ->
  StronglySorted (fun a b => key a <= key b) (sort_insert comparefn x l).
Proof.
  intros Hx Hl Hs. induction Hs as [|y rest Hs IH Hy]; simpl.
  - constructor; constructor.
  - inversion Hl as [|? ? Hvy Hvrest]; subst.
    rewrite (comparefn_key x y Hx Hvy).
    destruct (key y <? key x) eqn:Ek.
    + apply Z.ltb_lt in Ek. constructor; [now apply IH|].
      eapply Permutation_Forall;
        [apply Permutation_sym, sort_insert_perm|].
      constructor; [lia | exact Hy].
    + apply Z.ltb_ge in Ek. constructor; [now constructor|].
      constructor; [exact Ek|].
      eapply Forall_impl; [|exact Hy]. simpl. intros b Hb. lia.
Qed.

Lemma js_sort_sorted (l : list A) :
  Forall valid l ->
  StronglySorted (fun a b => key a <= key b) (js_sort comparefn l).
Proof.
  induction l as [|x rest IH]; intros Hl; simpl; [constructor|].
  inversion Hl; subst.
  apply sort_insert_sorted; [assumption | now apply js_sort_valid | now apply IH].
Qed.

Lemma sort_insert_stable (k : Z) (x : A) (l : list A) :
  valid x -> Forall valid l ->
  filter (fun a => key a =? k) (sort_insert comparefn x l) =
  filter (fun a => key a =? k) (x :: l).
Proof.
  intros Hx Hl. induction l as [|y rest IH]; [reflexivity|].
  inversion Hl as [|? ? Hvy Hvrest]; subst.
  simpl sort_insert. rewrite (comparefn_key x y Hx Hvy).
  destruct (key y <? key x) eqn:Ek; [|reflexivity].
  apply Z.ltb_lt in Ek.
  cbn [filter]. rewrite (IH Hvrest). cbn [filter].
  destruct (Z.eqb_spec (key y) k), (Z.eqb_spec (key x) k); try reflexivity; lia.
Qed.

Lemma js_sort_stable (k : Z) (l : list A) :
  Forall valid l ->
  filter (fun a => key a =? k) (js_sort comparefn l) =
  filter (fun a => key a =? k) l.
Proof.
  induction l as [|x rest IH]; intros Hl; [reflexivity|].
  inversion Hl; subst. simpl js_sort.
  rewrite sort_insert_stable by (try assumption; now apply js_sort_valid).
  simpl. now rewrite IH.
Qed.

End Sorting.

(** ** More on the popup heuristic *)

Lemma quick_level_monotone (a b : Z) :
  a <= b -> level_rank (quick_level a) <= level_rank (quick_level b).
Proof.
  intros Hab. unfold quick_level.
  destruct (Z.leb_spec 50 a), (Z.leb_spec 50 b), (Z.leb_spec 20 a),
    (Z.leb_spec 20 b); try lia; vm_compute; discriminate.
Qed.

Section PopupRiskMore.
Context {H : Type} `{HostH : Host H}.

(** X10. The popup heuristic is monotone: on records with the three
    severities of the data model, more records never lower the score or the
    level. *)
Theorem risk_is_monotone (items more : list Evidence.t) :
  known_severities (items ++ more)%list ->
  exists a b,
    score (calculateRiskLevel (H:=H) (Some items)) = VNum a
    /\ score (calculateRiskLevel (H:=H) (Some (items ++ more)%list)) = VNum b
    /\ a <= b
    /\ level_rank (level (calculateRiskLevel (H:=H) (Some items))) <=
       level_rank (level (calculateRiskLevel (H:=H) (Some (items ++ more)%list))).
Proof.
  intros Hk.
  assert (Hi : known_severities (items_of (Some items))).
  { unfold known_severities in *. apply Forall_app in Hk. exact (proj1 Hk). }
  rewrite (calculateRiskLevel_total (Some items) Hi).
  rewrite (calculateRiskLevel_total (Some (items ++ more)%list) Hk).
  cbn [score level items_of].
  assert (Hle : fold_right Z.add 0 (map weight_of items) <=
                fold_right Z.add 0 (map weight_of (items ++ more)%list)).
  { rewrite map_app, fold_right_app.
    assert (Hm := weights_nonneg more).
    generalize dependent (fold_right Z.add 0 (map weight_of more)).
    intros z Hz. clear Hi Hk.
    induction items as [|r rest IH]; cbn [map fold_right]; lia. }
  eexists. eexists. split; [reflexivity|]. split; [reflexivity|].
  split; [exact Hle | now apply quick_level_monotone].
Qed.

(** X11. On records with the three severities of the data model, the popup
    score is a number between 0 and ten times the number of records and is
    not capped. The level is [high] from 50 on, [medium] from 20 to 49 and
    [low] below 20; so fewer than two records are always [low], and fewer
    than five are never [high]. *)
Theorem risk_bounds (evidence : option (list Evidence.t)) :
  known_severities (items_of evidence) ->
  exists n,
    score (calculateRiskLevel (H:=H) evidence) = VNum n
    /\ 0 <= n <= 10 * Z.of_nat (List.length (items_of evidence))
    /\ (50 <= n -> level (calculateRiskLevel (H:=H) evidence) = "high")
    /\ (20 <= n < 50 -> level (calculateRiskLevel (H:=H) evidence) = "medium")
    /\ (n < 20 -> level (calculateRiskLevel (H:=H) evidence) = "low")
    /\ ((List.length (items_of evidence) < 2)%nat ->
        level (calculateRiskLevel (H:=H) evidence) = "low")
    /\ ((List.length (items_of evidence) < 5)%nat ->
        level (calculateRiskLevel (H:=H) evidence) <> "high").
Proof.
  intros Hk. rewrite (calculateRiskLevel_total evidence Hk). cbn [score level].
  assert (H0 := weights_nonneg (items_of evidence)).
  assert (H1 := weights_bound (items_of evidence)).
  exists (fold_right Z.add 0 (map weight_of (items_of evidence))).
  unfold quick_level.
  split; [reflexivity|]. split; [lia|].
  destruct (Z.leb_spec 50 (fold_right Z.add 0 (map weight_of (items_of evidence))));
    destruct (Z.leb_spec 20 (fold_right Z.add 0 (map weight_of (items_of evidence))));
    repeat split; intros; try reflexivity; try lia; discriminate.
Qed.

End PopupRiskMore.

Lemma risk_is_monotone_run :
  known_severities
    ([sample "eval-call" "high"] ++ [sample "inline-script" "low"])%list
  /\ exists a b,
       score (calculateRiskLevel (H:=browser) (Some [sample "eval-call" "high"])) =
       VNum a
       /\ score
            (calculateRiskLevel (H:=browser)
               (Some ([sample "eval-call" "high"]
                      ++ [sample "inline-script" "low"])%list)) =
          VNum b
       /\ a <= b.
Proof.
  assert (Hk : known_severities
                 ([sample "eval-call" "high"] ++ [sample "inline-script" "low"])%list)
    by (repeat constructor).
  split; [exact Hk|].
  destruct (risk_is_monotone (H:=browser) [sample "eval-call" "high"]
              [sample "inline-script" "low"] Hk)
    as (a & b & Ha & Hb & Hle & _).
  exists a, b. split; [exact Ha|]. split; [exact Hb | exact Hle].
Defined.

Lemma risk_bounds_run :
  known_severities (items_of (Some [sample "eval-call" "high"]))
  /\ (List.length (items_of (Some [sample "eval-call" "high"])) < 2)%nat
  /\ level (calculateRiskLevel (H:=browser) (Some [sample "eval-call" "high"])) =
     "low".
Proof.
  assert (Hk : known_severities (items_of (Some [sample "eval-call" "high"])))
    by (repeat constructor).
  assert (Hl : (List.length (items_of (Some [sample "eval-call" "high"])) < 2)%nat)
    by (apply Nat.ltb_lt; reflexivity).
  split; [exact Hk|]. split; [exact Hl|].
  destruct (risk_bounds (H:=browser) (Some [sample "eval-call" "high"]) Hk)
    as (n & _ & _ & _ & _ & _ & Hfew & _).
  exact (Hfew Hl).
Defined.

(** ** The evidence view of the popup *)

Section PopupFacts.
Context {H : Type} `{HostH : Host H} `{DateH : DateHost}.

Lemma filter_filter {A} (p q : A -> bool) (l : list A) :
  filter q (filter p l) = filter (fun x => andb (p x) (q x)) l.
Proof.
  induction l as [|x rest IH]; [reflexivity|].
  simpl. destruct (p x); simpl; [destruct (q x)|]; now rewrite IH.
Qed.

Lemma filter_true {A} (l : list A) : filter (fun _ => true) l = l.
Proof. induction l as [|x rest IH]; simpl; [reflexivity | now rewrite IH]. Qed.

Lemma filtered_by_controls (cur : list Evidence.t) (tf sf : string) :
  (if (sf =? "all")%string
   then (if (tf =? "all")%string then cur
         else filter (fun e => (Evidence.type e =? tf)%string) cur)
   else filter (fun e => (Evidence.severity e =? sf)%string)
          (if (tf =? "all")%string then cur
           else filter (fun e => (Evidence.type e =? tf)%string) cur)) =
  filter (passes_filters tf sf) cur.
Proof.
  unfold passes_filters.
  destruct (tf =? "all")%string, (sf =? "all")%string; simpl.
  - now rewrite filter_true.
  - reflexivity.
  - apply filter_ext. intros e. now rewrite andb_true_r.
  - apply filter_filter.
Qed.

Lemma filterAndSortEvidence_list_eq (cur : list Evidence.t) (tf sf sortBy : string) :
  filterAndSortEvidence_list cur tf sf sortBy =
  if (sortBy =? "time-desc")%string then
    js_sort (fun a b => js_minus (Date_value (Evidence.time b))
                          (Date_value (Evidence.time a)))
      (filter (passes_filters tf sf) cur)
  else if (sortBy =? "time-asc")%string then
    js_sort (fun a b => js_minus (Date_value (Evidence.time a))
                          (Date_value (Evidence.time b)))
      (filter (passes_filters tf sf) cur)
  else if (sortBy =? "severity-desc")%string then
    js_sort (fun a b => js_minus (severityOrder (Evidence.severity b))
                          (severityOrder (Evidence.severity a)))
      (filter (passes_filters tf sf) cur)
  else if (sortBy =? "severity-asc")%string then
    js_sort (fun a b => js_minus (severityOrder (Evidence.severity a))
                          (severityOrder (Evidence.severity b)))
      (filter (passes_filters tf sf) cur)
  else filter (passes_filters tf sf) cur.
Proof.
  unfold filterAndSortEvidence_list. cbv zeta.
  now rewrite filtered_by_controls.
Qed.

(** X12. The list the popup shows holds exactly the records that pass the
    type filter and the severity filter (the value [all] lets everything
    pass), each as often as in the evidence received: sorting only reorders.
    With a sort value other than the four known ones the records keep the
    order in which they were collected. *)
Theorem shown_records_pass_filters
  (cur : list Evidence.t) (tf sf sortBy : string) :
  Permutation (filterAndSortEvidence_list cur tf sf sortBy)
    (filter (passes_filters tf sf) cur)
  /\ (known_sort sortBy = false ->
      filterAndSortEvidence_list cur tf sf sortBy =
      filter (passes_filters tf sf) cur)
  /\ filterAndSortEvidence_list cur "all" "all" "" = cur.
Proof.
  rewrite !filterAndSortEvidence_list_eq. split; [|split].
  - repeat (destruct (String.eqb sortBy _); [apply js_sort_perm|]).
    apply Permutation_refl.
  - unfold known_sort. simpl. intros Hk.
    repeat (destruct (String.eqb sortBy _); [discriminate Hk|]). reflexivity.
  - simpl. apply filter_true.
Qed.

Lemma StronglySorted_impl {A} (R R' : A -> A -> Prop) (l : list A) :
  (forall a b, R a b -> R' a b) -> StronglySorted R l -> StronglySorted R' l.
Proof.
  intros HR. induction 1 as [|a l Hs IH Ha]; constructor; [exact IH|].
  eapply Forall_impl; [|exact Ha]. intros b. apply HR.
Qed.

Lemma Forall_filter_keep {A} (P : A -> Prop) (q : A -> bool) (l : list A) :
  Forall P l -> Forall P (filter q l).
Proof.
  intros Hl. apply Forall_forall. intros x Hx. apply filter_In in Hx.
  rewrite Forall_forall in Hl. now apply Hl.
Qed.

Lemma severity_comparefn_desc (a b : Evidence.t) :
  severityOrder (Evidence.severity a) <> None ->
  severityOrder (Evidence.severity b) <> None ->
  comes_after (js_minus (severityOrder (Evidence.severity b))
                 (severityOrder (Evidence.severity a))) =
  (- severity_rank b <? - severity_rank a).
Proof.
  unfold severity_rank. intros Ha Hb.
  destruct (severityOrder (Evidence.severity a)) as [x|]; [|now elim Ha].
  destruct (severityOrder (Evidence.severity b)) as [y|]; [|now elim Hb].
  simpl. destruct (Z.ltb_spec 0 (y - x)), (Z.ltb_spec (- y) (- x));
    try reflexivity; lia.
Qed.

Lemma severity_comparefn_asc (a b : Evidence.t) :
  severityOrder (Evidence.severity a) <> None ->
  severityOrder (Evidence.severity b) <> None ->
  comes_after (js_minus (severityOrder (Evidence.severity a))
                 (severityOrder (Evidence.severity b))) =
  (severity_rank b <? severity_rank a).
Proof.
  unfold severity_rank. intros Ha Hb.
  destruct (severityOrder (Evidence.severity a)) as [x|]; [|now elim Ha].
  destruct (severityOrder (Evidence.severity b)) as [y|]; [|now elim Hb].
  simpl. destruct (Z.ltb_spec 0 (x - y)), (Z.ltb_spec y x);
    try reflexivity; lia.
Qed.

(** X13. Sorting by severity. When every record has one of the severities
    high, medium, low, the order [severity-desc] shows all high records
    before all medium ones before all low ones, [severity-asc] the reverse,
    and in both the records of one severity keep the order in which they
    were collected. *)
Theorem severity_sort_is_stable (cur : list Evidence.t) (tf sf : string) :
  Forall (fun r => severityOrder (Evidence.severity r) <> None) cur ->
  StronglySorted (fun a b => severity_rank b <= severity_rank a)
    (filterAndSortEvidence_list cur tf sf "severity-desc")
  /\ StronglySorted (fun a b => severity_rank a <= severity_rank b)
       (filterAndSortEvidence_list cur tf sf "severity-asc")
  /\ forall k,
       filter (fun r => severity_rank r =? k)
         (filterAndSortEvidence_list cur tf sf "severity-desc") =
       filter (fun r => severity_rank r =? k) (filter (passes_filters tf sf) cur)
       /\ filter (fun r => severity_rank r =? k)
            (filterAndSortEvidence_list cur tf sf "severity-asc") =
          filter (fun r => severity_rank r =? k) (filter (passes_filters tf sf) cur).
Proof.
  intros Hcur. rewrite !filterAndSortEvidence_list_eq. simpl.
  assert (Hf : Forall (fun r => severityOrder (Evidence.severity r) <> None)
                 (filter (passes_filters tf sf) cur))
    by now apply Forall_filter_keep.
  split; [|split].
  - eapply StronglySorted_impl;
      [|apply (js_sort_sorted _ (fun r => - severity_rank r) _
                 severity_comparefn_desc _ Hf)].
    simpl. intros a b Hab. lia.
  - apply (js_sort_sorted _ severity_rank _ severity_comparefn_asc _ Hf).
  - intros k. split.
    + assert (Hext : forall r,
                 (severity_rank r =? k) = (- severity_rank r =? - k)).
      { intros r.
        destruct (Z.eqb_spec (- severity_rank r) (- k)),
          (Z.eqb_spec (severity_rank r) k); try reflexivity; lia. }
      rewrite !(filter_ext _ _ Hext).
      apply (js_sort_stable _ (fun r => - severity_rank r) _
               severity_comparefn_desc (- k) _ Hf).
    + apply (js_sort_stable _ severity_rank _ severity_comparefn_asc k _ Hf).
Qed.

End PopupFacts.

Section PopupView2.
Context {H : Type} `{HostH : Host H} `{DateH : DateHost}.

Lemma time_comparefn_desc (a b : Evidence.t) :
  Date_value (Evidence.time a) <> None ->
  Date_value (Evidence.time b) <> None ->
  comes_after (js_minus (Date_value (Evidence.time b))
                 (Date_value (Evidence.time a))) =
  (- time_key b <? - time_key a).
Proof.
  unfold time_key. intros Ha Hb.
  destruct (Date_value (Evidence.time a)) as [x|]; [|now elim Ha].
  destruct (Date_value (Evidence.time b)) as [y|]; [|now elim Hb].
  simpl. destruct (Z.ltb_spec 0 (y - x)), (Z.ltb_spec (- y) (- x));
    try reflexivity; lia.
Qed.

Lemma time_comparefn_asc (a b : Evidence.t) :
  Date_value (Evidence.time a) <> None ->
  Date_value (Evidence.time b) <> None ->
  comes_after (js_minus (Date_value (Evidence.time a))
                 (Date_value (Evidence.time b))) =
  (time_key b <? time_key a).
Proof.
  unfold time_key. intros Ha Hb.
  destruct (Date_value (Evidence.time a)) as [x|]; [|now elim Ha].
  destruct (Date_value (Evidence.time b)) as [y|]; [|now elim Hb].
  simpl. destruct (Z.ltb_spec 0 (x - y)), (Z.ltb_spec y x);
    try reflexivity; lia.
Qed.

(** X14. Sorting by time. When the time of every record is a valid date,
    the order [time-desc] shows the records from the latest to the earliest,
    [time-asc] from the earliest to the latest, and records of the same
    instant keep the order in which they were collected. *)
Theorem time_sort_is_stable (cur : list Evidence.t) (tf sf : string) :
  Forall (fun r => Date_value (Evidence.time r) <> None) cur ->
  StronglySorted (fun a b => time_key b <= time_key a)
    (filterAndSortEvidence_list cur tf sf "time-desc")
  /\ StronglySorted (fun a b => time_key a <= time_key b)
       (filterAndSortEvidence_list cur tf sf "time-asc")
  /\ forall k,
       filter (fun r => time_key r =? k)
         (filterAndSortEvidence_list cur tf sf "time-desc") =
       filter (fun r => time_key r =? k) (filter (passes_filters tf sf) cur)
       /\ filter (fun r => time_key r =? k)
            (filterAndSortEvidence_list cur tf sf "time-asc") =
          filter (fun r => time_key r =? k) (filter (passes_filters tf sf) cur).
Proof.
  intros Hcur. rewrite !filterAndSortEvidence_list_eq. simpl.
  assert (Hf : Forall (fun r => Date_value (Evidence.time r) <> None)
                 (filter (passes_filters tf sf) cur))
    by now apply Forall_filter_keep.
  split; [|split].
  - eapply StronglySorted_impl;
      [|apply (js_sort_sorted _ (fun r => - time_key r) _
                 time_comparefn_desc _ Hf)].
    simpl. intros a b Hab. lia.
  - apply (js_sort_sorted _ time_key _ time_comparefn_asc _ Hf).
  - intros k. split.
    + assert (Hext : forall r, (time_key r =? k) = (- time_key r =? - k)).
      { intros r.
        destruct (Z.eqb_spec (- time_key r) (- k)),
          (Z.eqb_spec (time_key r) k); try reflexivity; lia. }
      rewrite !(filter_ext _ _ Hext).
      apply (js_sort_stable _ (fun r => - time_key r) _
               time_comparefn_desc (- k) _ Hf).
    + apply (js_sort_stable _ time_key _ time_comparefn_asc k _ Hf).
Qed.

Lemma renderCard_snippet (item : Evidence.t) :
  snippet_textContent (renderCard item) <> "".
Proof.
  unfold renderCard. cbn [snippet_textContent].
  destruct (String.eqb_spec (Evidence.snippet item) "") as [He | Hne];
    [discriminate | exact Hne].
Qed.

(** X15. What the evidence view shows. The message that no evidence was
    found appears exactly when no record passes the filters; otherwise
    there is one card for each record that passes, and no card has an empty
    snippet text (an empty snippet is shown as a placeholder). *)
Theorem cards_shown (cur : list Evidence.t) (tf sf sortBy : string) :
  match filterAndSortEvidence cur tf sf sortBy with
  | InnerHTML markup =>
      markup = no_evidence_markup /\ filter (passes_filters tf sf) cur = []
  | Children cards =>
      List.length cards = List.length (filter (passes_filters tf sf) cur)
      /\ cards <> []
      /\ Forall (fun c => snippet_textContent c <> "") cards
  end.
Proof.
  unfold filterAndSortEvidence, renderEvidence.
  destruct (shown_records_pass_filters cur tf sf sortBy) as (Hp & _).
  destruct (filterAndSortEvidence_list cur tf sf sortBy) as [|x rest] eqn:El.
  - split; [reflexivity|].
    apply Permutation_nil in Hp. exact Hp.
  - split; [|split].
    + rewrite length_map. now apply Permutation_length.
    + discriminate.
    + apply Forall_forall. intros c Hc. apply in_map_iff in Hc.
      destruct Hc as (item & <- & _). apply renderCard_snippet.
Qed.


Lemma updateRiskBadge_bands (evidence : option (list Evidence.t)) :
  known_severities (items_of evidence) ->
  exists n,
    score (calculateRiskLevel (H:=H) evidence) = VNum n
    /\ updateRiskBadge (level (calculateRiskLevel (H:=H) evidence)) =
       if 50 <=? n then
         {| badge_className := "risk-badge risk-high";
            riskLevel_textContent := "HIGH" |}
       else if 20 <=? n then
         {| badge_className := "risk-badge risk-medium";
            riskLevel_textContent := "MEDIUM" |}
       else
         {| badge_className := "risk-badge risk-low";
            riskLevel_textContent := "LOW" |}.
Proof.
  intros Hk. rewrite (calculateRiskLevel_total evidence Hk). cbn [level score].
  eexists. split; [reflexivity|]. unfold quick_level.
  destruct (50 <=? _); [reflexivity|]. destruct (20 <=? _); reflexivity.
Qed.

(** X17. The answer of the content script and the popup. When the message
    failed, the popup shows the error text and keeps the evidence, the count
    and the badge it had; an answer without evidence changes nothing at all.
    An answer with evidence replaces the evidence; the count text is the
    number of records, the view is the one of the filters and the sort order
    chosen, and, for records with the three severities of the data model,
    the score is a number and the badge reads HIGH from score 50 on, MEDIUM
    from 20 to 49 and LOW below. *)
Theorem answer_updates_popup
  (lastError : bool) (response : option (option (list Evidence.t))) (p : popup) :
  (lastError = true ->
   currentEvidence (onCollectEvidence lastError response p) = currentEvidence p
   /\ evidenceCount_textContent (onCollectEvidence lastError response p) =
      evidenceCount_textContent p
   /\ riskBadge (onCollectEvidence lastError response p) = riskBadge p
   /\ evidenceContainer (onCollectEvidence lastError response p) =
      InnerHTML collect_error_markup)
  /\ (lastError = false -> response = None \/ response = Some None ->
      onCollectEvidence lastError response p = p)
  /\ (forall evidence,
        lastError = false -> response = Some (Some evidence) ->
        currentEvidence (onCollectEvidence lastError response p) = evidence
        /\ evidenceCount_textContent (onCollectEvidence lastError response p) =
           number_text (Z.of_nat (List.length evidence))
        /\ evidenceContainer (onCollectEvidence lastError response p) =
           filterAndSortEvidence evidence (typeFilter_value p)
             (severityFilter_value p) (sortBy_value p)
        /\ (known_severities evidence ->
            exists n,
              score (calculateRiskLevel (H:=H) (Some evidence)) = VNum n
              /\ riskBadge (onCollectEvidence lastError response p) =
                 (if 50 <=? n then
                    {| badge_className := "risk-badge risk-high";
                       riskLevel_textContent := "HIGH" |}
                  else if 20 <=? n then
                    {| badge_className := "risk-badge risk-medium";
                       riskLevel_textContent := "MEDIUM" |}
                  else
                    {| badge_className := "risk-badge risk-low";
                       riskLevel_textContent := "LOW" |}))).
Proof.
  split; [|split].
  - intros ->. repeat split.
  - intros -> [-> | ->]; reflexivity.
  - intros evidence -> ->. cbn [onCollectEvidence currentEvidence
      evidenceCount_textContent riskBadge evidenceContainer].
    split; [reflexivity|]. split; [reflexivity|]. split; [reflexivity|].
    intros Hk. exact (updateRiskBadge_bands (Some evidence) Hk).
Qed.

End PopupView2.

(** ** The exported report *)

Lemma own_entry_put_same (k : string) (v : value) (o : list (string * value)) :
  own_entry k (put k v o) = Some v.
Proof.
  unfold own_entry. induction o as [|[k' v'] rest IH]; simpl.
  - now rewrite String.eqb_refl.
  - destruct (String.eqb_spec k' k) as [-> | Hne]; simpl.
    + now rewrite String.eqb_refl.
    + destruct (String.eqb_spec k' k); [contradiction | exact IH].
Qed.

Lemma own_entry_put_other (k t : string) (v : value) (o : list (string * value)) :
  t <> k -> own_entry t (put k v o) = own_entry t o.
Proof.
  intros Hne. unfold own_entry. induction o as [|[k' v'] rest IH]; simpl.
  - destruct (String.eqb_spec k t); [now subst | reflexivity].
  - destruct (String.eqb_spec k' k) as [-> | Hk]; simpl.
    + destruct (String.eqb_spec k t); [now subst | reflexivity].
    + destruct (String.eqb_spec k' t); [reflexivity | exact IH].
Qed.

Lemma own_entry_None (k : string) (o : list (string * value)) :
  own_entry k o = None <-> ~ In k (map fst o).
Proof.
  unfold own_entry. induction o as [|[k' v'] rest IH]; simpl; [tauto|].
  destruct (String.eqb_spec k' k) as [-> | Hne].
  - split; [discriminate | intros Hn; elim Hn; now left].
  - rewrite IH. tauto.
Qed.

Lemma put_keys (k : string) (v : value) (o : list (string * value)) :
  map fst (put k v o) =
  match own_entry k o with
  | Some _ => map fst o
  | None => (map fst o ++ [k])%list
  end.
Proof.
  unfold own_entry. induction o as [|[k' v'] rest IH]; simpl; [reflexivity|].
  destruct (String.eqb_spec k' k) as [-> | Hne]; simpl; [reflexivity|].
  rewrite IH. now destruct (find _ rest).
Qed.

Lemma put_NoDup (k : string) (v : value) (o : list (string * value)) :
  NoDup (map fst o) -> NoDup (map fst (put k v o)).
Proof.
  intros Hnd. rewrite put_keys.
  destruct (own_entry k o) eqn:Eg; [exact Hnd|].
  apply own_entry_None in Eg.
  apply NoDup_rev in Hnd. rewrite <- (rev_involutive (map fst o ++ [k])).
  apply NoDup_rev. rewrite rev_app_distr. simpl.
  constructor; [|exact Hnd]. now rewrite <- in_rev.
Qed.

Lemma put_sum (k : string) (c : Z) (o : list (string * value)) :
  own_entry k o = Some (VNum c) \/ (own_entry k o = None /\ c = 0) ->
  sum_values (put k (VNum (c + 1)) o) = sum_values o + 1.
Proof.
  unfold sum_values, own_entry.
  induction o as [|[k' v'] rest IH]; simpl; intros Hc.
  - destruct Hc as [Hc | [_ ->]]; [discriminate | reflexivity].
  - destruct (String.eqb_spec k' k) as [-> | Hne]; simpl.
    + destruct Hc as [Hc | [Hc _]]; [|discriminate].
      inversion Hc; subst v'. lia.
    + rewrite (IH Hc). lia.
Qed.

Lemma member_own (k : string) (o : list (string * value)) :
  member k o =
  match own_entry k o with
  | Some v => v
  | None => inherited_member k
  end.
Proof.
  unfold member, own_entry. induction o as [|[k' v'] rest IH]; simpl;
    [reflexivity|].
  destruct (String.eqb_spec k' k) as [-> | Hne]; simpl; [reflexivity|].
  exact IH.
Qed.

Lemma known_type_plain (t : string) :
  known_type t = true ->
  inherited_member t = VUndefined /\ (t =? "__proto__")%string = false.
Proof.
  unfold known_type, severity_of_type. cbn [existsb].
  repeat match goal with
         | |- context [String.eqb t ?c] =>
             destruct (String.eqb_spec t c) as [-> | ?];
             [intros _; split; reflexivity|]
         end.
  discriminate.
Qed.

Lemma count_severity_occ (k : string) (l : list Evidence.t) :
  count_severity k l = severity_count k l.
Proof.
  unfold count_severity, severity_count. f_equal.
  induction l as [|r rest IH]; [reflexivity|].
  simpl. destruct (String.eqb_spec (Evidence.severity r) k) as [He | Hne];
    destruct (string_dec (Evidence.severity r) k); try contradiction;
    simpl; now rewrite IH.
Qed.

Lemma severity_counts_bound (l : list Evidence.t) :
  severity_count "high" l + severity_count "medium" l + severity_count "low" l
  <= Z.of_nat (List.length l).
Proof.
  unfold severity_count. induction l as [|r rest IH]; [simpl; lia|].
  cbn [map count_occ List.length]. rewrite Nat2Z.inj_succ.
  destruct (string_dec (Evidence.severity r) "high") as [e|];
    [rewrite e|];
    repeat match goal with
           | |- context [string_dec ?a ?b] =>
               destruct (string_dec a b); try congruence
           end;
    rewrite ?Nat2Z.inj_succ; lia.
Qed.

Section ExportFacts.
Context {H : Type} `{HostH : Host H}.

Lemma count_step (t : string) (o : list (string * value)) (c : nat) :
  known_type t = true ->
  own_entry t o =
  (if Nat.eqb c 0 then None else Some (VNum (Z.of_nat c))) ->
  obj_set t (js_plus (H:=H) (js_or (member t o) (VNum 0)) (VNum 1)) o =
  put t (VNum (Z.of_nat c + 1)) o.
Proof.
  intros Hk Hget. destruct (known_type_plain t Hk) as [Hinh Hproto].
  unfold obj_set. rewrite Hproto, member_own, Hget.
  destruct c as [|n]; cbn [Nat.eqb].
  - rewrite Hinh. reflexivity.
  - unfold js_or. cbn [truthy].
    replace (Z.of_nat (S n) =? 0) with false
      by (symmetry; apply Z.eqb_neq; lia).
    reflexivity.
Qed.

Lemma count_types_from (l : list Evidence.t) :
  known_types l ->
  forall (o : list (string * value)) (done : list string),
    NoDup (map fst o) ->
    (forall t, own_entry t o =
               if Nat.eqb (count_occ string_dec done t) 0 then None
               else Some (VNum (Z.of_nat (count_occ string_dec done t)))) ->
    NoDup
      (map fst
         (fold_left
            (fun typeCounts e =>
               obj_set (Evidence.type e)
                 (js_plus (H:=H)
                    (js_or (member (Evidence.type e) typeCounts) (VNum 0))
                    (VNum 1))
                 typeCounts)
            l o))
    /\ (forall t,
          own_entry t
            (fold_left
               (fun typeCounts e =>
                  obj_set (Evidence.type e)
                    (js_plus (H:=H)
                       (js_or (member (Evidence.type e) typeCounts) (VNum 0))
                       (VNum 1))
                    typeCounts)
               l o) =
          if Nat.eqb (count_occ string_dec (done ++ map Evidence.type l) t) 0
          then None
          else Some (VNum (Z.of_nat
                             (count_occ string_dec (done ++ map Evidence.type l) t))))
    /\ sum_values
         (fold_left
            (fun typeCounts e =>
               obj_set (Evidence.type e)
                 (js_plus (H:=H)
                    (js_or (member (Evidence.type e) typeCounts) (VNum 0))
                    (VNum 1))
                 typeCounts)
            l o) =
       sum_values o + Z.of_nat (List.length l).
Proof.
  intros Hk. induction Hk as [|e rest He _ IH]; intros o done Hnd Hget.
  - simpl. rewrite app_nil_r. split; [exact Hnd|]. split; [exact Hget | lia].
  - cbn [fold_left map List.length].
    rewrite (count_step (Evidence.type e) o
               (count_occ string_dec done (Evidence.type e)) He
               (Hget (Evidence.type e))).
    destruct (IH (put (Evidence.type e)
                    (VNum (Z.of_nat (count_occ string_dec done (Evidence.type e)) + 1))
                    o)
                 (done ++ [Evidence.type e])%list) as (N & G & Hsum).
    + now apply put_NoDup.
    + intros t. rewrite count_occ_app. simpl.
      destruct (string_dec (Evidence.type e) t) as [<- | Hne].
      * rewrite own_entry_put_same.
        replace (count_occ string_dec done (Evidence.type e) + 1)%nat
          with (S (count_occ string_dec done (Evidence.type e))) by lia.
        cbn [Nat.eqb]. f_equal. f_equal. lia.
      * rewrite own_entry_put_other by congruence.
        rewrite Hget. now rewrite Nat.add_0_r.
    + rewrite <- app_assoc in G. simpl in G.
      split; [exact N|]. split; [exact G|].
      rewrite Hsum, put_sum; [lia|].
      rewrite (Hget (Evidence.type e)).
      destruct (count_occ string_dec done (Evidence.type e)) as [|n];
        cbn [Nat.eqb]; [right; split; reflexivity | left; reflexivity].
Qed.

(** X18. The exported report is consistent with itself. For records of the
    twelve evidence types, the table of counts by type has each type once,
    holds for each type the number of records of that type (and no entry
    for a type without records), and its counts add up to the evidence
    count of the metadata. For records with the three severities of the
    data model, the risk score of the metadata is 10, 5 and 2 times the
    three severity counts of the summary; these counts together never
    exceed the evidence count. *)
Theorem export_counts_agree
  (currentUrl timestamp : string) (cur : list Evidence.t) (t : string) :
  (known_types cur ->
   NoDup
     (map fst
        (typeCounts
           (report_summary_ (exportReport_report (H:=H) currentUrl timestamp cur))))
   /\ own_entry t
        (typeCounts
           (report_summary_ (exportReport_report (H:=H) currentUrl timestamp cur))) =
      (if type_count t cur =? 0 then None else Some (VNum (type_count t cur)))
   /\ sum_values
        (typeCounts
           (report_summary_ (exportReport_report (H:=H) currentUrl timestamp cur))) =
      evidenceCount
        (report_metadata_ (exportReport_report (H:=H) currentUrl timestamp cur)))
  /\ (known_severities cur ->
      riskScore
        (report_metadata_ (exportReport_report (H:=H) currentUrl timestamp cur)) =
      VNum
        (10 * severityCounts_high
                (report_summary_
                   (exportReport_report (H:=H) currentUrl timestamp cur))
         + 5 * severityCounts_medium
                 (report_summary_
                    (exportReport_report (H:=H) currentUrl timestamp cur))
         + 2 * severityCounts_low
                 (report_summary_
                    (exportReport_report (H:=H) currentUrl timestamp cur))))
  /\ severityCounts_high
       (report_summary_ (exportReport_report (H:=H) currentUrl timestamp cur))
     + severityCounts_medium
         (report_summary_ (exportReport_report (H:=H) currentUrl timestamp cur))
     + severityCounts_low
         (report_summary_ (exportReport_report (H:=H) currentUrl timestamp cur))
     <= evidenceCount
          (report_metadata_ (exportReport_report (H:=H) currentUrl timestamp cur)).
Proof.
  cbn [exportReport_report report_summary_ report_metadata_ typeCounts
       severityCounts_high severityCounts_medium severityCounts_low
       build_metadata evidenceCount riskScore].
  split; [|split].
  - intros Hk.
    destruct (count_types_from cur Hk [] [] (NoDup_nil _) (fun _ => eq_refl))
      as (N & G & Hsum).
    split; [exact N|]. split; [|exact Hsum].
    unfold count_types. rewrite (G t). simpl app. unfold type_count.
    destruct (count_occ string_dec (map Evidence.type cur) t) as [|n];
      [reflexivity|].
    simpl Nat.eqb.
    replace (Z.of_nat (S n) =? 0) with false
      by (symmetry; apply Z.eqb_neq; lia).
    reflexivity.
  - intros Hk. rewrite (calculateRiskLevel_total (Some cur) Hk).
    cbn [score items_of].
    rewrite !count_severity_occ. now rewrite weights_by_severity.
  - rewrite !count_severity_occ. apply severity_counts_bound.
Qed.

End ExportFacts.

Lemma export_counts_agree_run :
  known_types [sample "eval-call" "high"; sample "inline-script" "low";
               sample "eval-call" "high"]
  /\ known_severities [sample "eval-call" "high"; sample "inline-script" "low";
                       sample "eval-call" "high"]
  /\ own_entry "eval-call"
       (typeCounts
          (report_summary_
             (exportReport_report (H:=browser) "https://example.com/"
                "2024-01-01T00:00:00.000Z"
                [sample "eval-call" "high"; sample "inline-script" "low";
                 sample "eval-call" "high"]))) = Some (VNum 2)
  /\ riskScore
       (report_metadata_
          (exportReport_report (H:=browser) "https://example.com/"
             "2024-01-01T00:00:00.000Z"
             [sample "eval-call" "high"; sample "inline-script" "low";
              sample "eval-call" "high"])) = VNum 22.
Proof.
  assert (Ht : known_types [sample "eval-call" "high"; sample "inline-script" "low";
                            sample "eval-call" "high"])
    by (repeat constructor).
  assert (Hs : known_severities
                 [sample "eval-call" "high"; sample "inline-script" "low";
                  sample "eval-call" "high"])
    by (repeat constructor).
  split; [exact Ht|]. split; [exact Hs|].
  destruct (export_counts_agree (H:=browser) "https://example.com/"
              "2024-01-01T00:00:00.000Z"
              [sample "eval-call" "high"; sample "inline-script" "low";
               sample "eval-call" "high"] "eval-call")
    as (Htypes & Hscore & _).
  split; [exact (proj1 (proj2 (Htypes Ht))) | exact (Hscore Hs)].
Defined.

Lemma replace_colon_dot_spec (s : string) :
  String.length (replace_colon_dot s) = String.length s
  /\ forall c, In c (list_ascii_of_string (replace_colon_dot s)) ->
               c <> ":"%char /\ c <> "."%char.
Proof.
  induction s as [|a r [IHl IHc]]; simpl; [split; [reflexivity | contradiction]|].
  split; [now rewrite IHl|].
  intros c [<- | Hin]; [|now apply IHc].
  destruct (Ascii.eqb_spec a ":"%char) as [-> | Hc]; simpl.
  - split; discriminate.
  - destruct (Ascii.eqb_spec a "."%char) as [-> | Hd]; [split; discriminate|].
    now split.
Qed.

(** X19. The file name of an export is [xss-report-], the time stamp with
    every colon and every dot replaced by a dash, and [.json]: whatever the
    time stamp, the part before the extension has its length and holds
    neither a colon nor a dot. *)
Theorem export_filename_is_clean (iso : string) :
  exists body,
    export_filename iso = "xss-report-" ++ body ++ ".json"
    /\ String.length body = String.length iso
    /\ forall c, In c (list_ascii_of_string body) ->
                 c <> ":"%char /\ c <> "."%char.
Proof.
  exists (replace_colon_dot iso). split; [reflexivity|].
  apply replace_colon_dot_spec.
Qed.

(** ** Concrete runs of the popup *)

Lemma severity_sort_is_stable_run :
  Forall (fun r => severityOrder (Evidence.severity r) <> None)
    [sample_at "low" "1"; sample_at "high" "2"; sample_at "low" "3";
     sample_at "high" "4"]
  /\ @filterAndSortEvidence_list sample_dates
       [sample_at "low" "1"; sample_at "high" "2"; sample_at "low" "3";
        sample_at "high" "4"] "all" "all" "severity-desc" =
     [sample_at "high" "2"; sample_at "high" "4"; sample_at "low" "1";
      sample_at "low" "3"]
  /\ StronglySorted (fun a b => severity_rank b <= severity_rank a)
       (@filterAndSortEvidence_list sample_dates
          [sample_at "low" "1"; sample_at "high" "2"; sample_at "low" "3";
           sample_at "high" "4"] "all" "all" "severity-desc").
Proof.
  assert (Hv : Forall (fun r => severityOrder (Evidence.severity r) <> None)
                 [sample_at "low" "1"; sample_at "high" "2"; sample_at "low" "3";
                  sample_at "high" "4"])
    by (repeat constructor; discriminate).
  split; [exact Hv|]. split; [reflexivity|].
  exact (proj1 (@severity_sort_is_stable sample_dates _ "all" "all" Hv)).
Defined.

Lemma time_sort_is_stable_run :
  Forall (fun r => @Date_value sample_dates (Evidence.time r) <> None)
    [sample_at "low" "30"; sample_at "high" "10"; sample_at "low" "20"]
  /\ @filterAndSortEvidence_list sample_dates
       [sample_at "low" "30"; sample_at "high" "10"; sample_at "low" "20"]
       "all" "all" "time-asc" =
     [sample_at "high" "10"; sample_at "low" "20"; sample_at "low" "30"]
  /\ StronglySorted (fun a b => @time_key sample_dates a <= @time_key sample_dates b)
       (@filterAndSortEvidence_list sample_dates
          [sample_at "low" "30"; sample_at "high" "10"; sample_at "low" "20"]
          "all" "all" "time-asc").
Proof.
  assert (Hv : Forall (fun r => @Date_value sample_dates (Evidence.time r) <> None)
                 [sample_at "low" "30"; sample_at "high" "10"; sample_at "low" "20"])
    by (repeat constructor; discriminate).
  split; [exact Hv|]. split; [reflexivity|].
  exact (proj1 (proj2 (@time_sort_is_stable sample_dates _ "all" "all" Hv))).
Defined.

Lemma shown_records_pass_filters_run :
  known_sort "newest" = false
  /\ @filterAndSortEvidence_list sample_dates
       [sample_at "low" "30"; sample_at "high" "10"; sample_at "low" "20"]
       "all" "low" "newest" =
     [sample_at "low" "30"; sample_at "low" "20"].
Proof.
  split; [reflexivity|].
  exact (proj1 (proj2 (@shown_records_pass_filters sample_dates
                         [sample_at "low" "30"; sample_at "high" "10";
                          sample_at "low" "20"] "all" "low" "newest"))
           eq_refl).
Defined.


Lemma answer_updates_popup_run :
  onCollectEvidence (H:=browser) (DateH:=sample_dates) false (Some None)
    sample_popup = sample_popup
  /\ known_severities [sample "eval-call" "high"; sample "eval-call" "high"]
  /\ riskLevel_textContent
       (riskBadge
          (onCollectEvidence (H:=browser) (DateH:=sample_dates) false
             (Some (Some [sample "eval-call" "high"; sample "eval-call" "high"]))
             sample_popup)) = "MEDIUM".
Proof.
  assert (Hk : known_severities
                 [sample "eval-call" "high"; sample "eval-call" "high"])
    by (repeat constructor).
  destruct (@answer_updates_popup browser browser_host sample_dates false
              (Some None) sample_popup) as (_ & Hnone & _).
  destruct (@answer_updates_popup browser browser_host sample_dates false
              (Some (Some [sample "eval-call" "high"; sample "eval-call" "high"]))
              sample_popup) as (_ & _ & Hsome).
  split; [|split; [exact Hk|]].
  - apply Hnone; [reflexivity | now right].
  - destruct (Hsome _ eq_refl eq_refl) as (_ & _ & _ & Hbadge).
    destruct (Hbadge Hk) as (n & Hn & ->).
    assert (En : n = 20) by (inversion Hn; reflexivity).
    rewrite En. reflexivity.
Defined.

(** ** Ids without gaps *)

Section Consecutive.
Context {H : Type} `{HostH : Host H}.

Lemma preserves_ret I {A} (a : A) : preserves I (@ret H A a).
Proof. intros st Hst. exact Hst. Qed.

Lemma preserves_throw I {A} (e : value) : preserves I (@throw H A e).
Proof. intros st Hst. exact Hst. Qed.

Lemma preserves_bind I {A B} (m : M H A) (k : A -> M H B) :
  preserves I m -> (forall a, preserves I (k a)) -> preserves I (bind m k).
Proof.
  intros Hm Hk st Hst. unfold bind.
  specialize (Hm st Hst). destruct (m st) as [[a|e] st1]; simpl in *.
  - now apply Hk.
  - exact Hm.
Qed.

Lemma preserves_forEach_from I {A} (f : A -> nat -> M H unit) (l : list A) :
  (forall x i, preserves I (f x i)) -> forall i, preserves I (forEach_from f l i).
Proof.
  intros Hf. induction l as [|x rest IH]; intros i; simpl.
  - apply preserves_ret.
  - apply preserves_bind; [apply Hf | intros _; apply IH].
Qed.

Lemma preserves_repeatM I (n : nat) (m : M H unit) :
  preserves I m -> preserves I (repeatM n m).
Proof.
  intros Hm. induction n as [|n IH]; simpl.
  - apply preserves_ret.
  - apply preserves_bind; [exact Hm | intros _; exact IH].
Qed.

Lemma consecutive_push (e : Evidence.t) (st : page H) :
  Evidence.id e = evidenceIdCounter st + 1 ->
  consecutive st -> consecutive (push e st).
Proof.
  intros Hid [Hc Hm]. unfold consecutive, push. simpl.
  rewrite length_app, map_app. simpl.
  rewrite Nat.add_1_r, seq_S, map_app, <- Hm. simpl.
  split; [lia|]. f_equal. f_equal. lia.
Qed.

Lemma preserves_addEvidence_text type severity text location stack :
  preserves consecutive (addEvidence (H:=H) type severity (VStr text) location stack).
Proof.
  intros st Hst. rewrite addEvidence_string. simpl.
  now apply consecutive_push.
Qed.

Lemma preserves_this_selector I (this : value) :
  preserves I (this_selector (H:=H) this).
Proof.
  destruct this as [| |b|n|s|props|name|s original]; simpl;
    try apply preserves_throw; try apply preserves_ret.
  destruct (truthy (get_prop "tagName" props)); [|apply preserves_ret].
  destruct (get_prop "tagName" props); try apply preserves_throw;
    apply preserves_ret.
Qed.

Lemma preserves_read I {A} (f : page H -> A) :
  preserves I (fun st => (Ok (f st), st)).
Proof. intros st Hst. exact Hst. Qed.

Ltac preserves_steps :=
  repeat first
    [ apply preserves_ret
    | apply preserves_throw
    | apply preserves_this_selector
    | apply preserves_addEvidence_text
    | apply (preserves_read _ (fun st => location_href (host st)))
    | apply (preserves_read _ (fun st => error_stack (host st)))
    | apply (preserves_read _ (fun st => document_elements (host st)))
    | apply preserves_bind; [|intros ?] ].

Lemma preserves_collectStaticSignals :
  preserves consecutive (@collectStaticSignals H _).
Proof.
  unfold collectStaticSignals, collectInlineEventHandlers, collectJsProtocol,
    collectInlineScripts, forEach, querySelectorAll_star.
  apply preserves_bind; [|intros _; apply preserves_bind; [|intros _]];
    (apply preserves_bind;
     [apply (preserves_read _ (fun st => document_elements (host st)))
     | intros doc]);
    apply preserves_forEach_from; intros elem index.
  - apply preserves_forEach_from. intros attr i.
    unfold collectInlineEventHandler, window_location_href.
    destruct (hasAttribute elem attr); preserves_steps.
  - unfold collectJsProtocolElement, window_location_href. preserves_steps.
  - unfold collectInlineScript, window_location_href.
    destruct (andb _ _); preserves_steps.
Qed.

Lemma preserves_hook_record (s : sink) (this : value) (arguments : list value) :
  preserves consecutive (hook_record (H:=H) s this arguments).
Proof.
  destruct s; simpl; unfold window_location_href, new_Error_stack;
    rewrite ?String_code_text; try solve [preserves_steps];
    destruct (arg 0 arguments); simpl; preserves_steps.
Qed.

Lemma preserves_call (f this : value) (arguments : list value) :
  preserves consecutive (call (H:=H) f this arguments).
Proof.
  revert this arguments.
  induction f as [| |b|n|s|props|name|s original IH]; intros this arguments;
    simpl; try apply preserves_throw.
  - intros st Hst. now destruct (host_apply name this arguments (host st)).
  - intros st.
    apply (preserves_bind consecutive
             (hook_record s (bound_this (host st) this) arguments)
             (fun _ => call original (bound_this (host st) this)
                         (forwarded s arguments)));
      [apply preserves_hook_record | intros _; apply IH].
Qed.

Lemma preserves_initialize : preserves consecutive (@initialize H _).
Proof.
  intros st Hst. unfold initialize.
  apply (preserves_bind consecutive _ (fun _ => hookRuntimeSinks)); [| |exact Hst].
  - destruct (String.eqb _ _).
    + intros st' Hst'. exact Hst'.
    + apply preserves_collectStaticSignals.
  - intros _ st' Hst'. exact Hst'.
Qed.

Lemma consecutive_run (events : list event) (st : page H) :
  forallb (fun e => negb (direct_add e)) events = true ->
  consecutive st -> consecutive (run events st).
Proof.
  revert st. induction events as [|e rest IH]; intros st Hev Hst; [exact Hst|].
  simpl in Hev. apply andb_prop in Hev. destruct Hev as [He Hrest].
  simpl. apply IH; [exact Hrest|].
  destruct e; simpl; try discriminate He.
  - now apply preserves_repeatM; [apply preserves_collectStaticSignals|].
  - now apply preserves_call.
  - now apply preserves_call.
  - exact Hst.
  - exact Hst.
Qed.

(** X20. In a page session where [addEvidence] is called by the scanner
    and the wrappers only, no id is ever skipped: the counter equals the
    number of stored records, and the record at position k, counted from 1,
    has the id k. *)
Theorem ids_are_positions (env : page H) (events : list event) :
  forallb (fun e => negb (direct_add e)) events = true ->
  evidenceIdCounter (session env events) =
  Z.of_nat (List.length (evidenceList (session env events)))
  /\ map Evidence.id (evidenceList (session env events)) =
     map Z.of_nat (seq 1 (List.length (evidenceList (session env events)))).
Proof.
  intros Hev. unfold session. apply consecutive_run; [exact Hev|].
  unfold content_script. apply preserves_initialize.
  split; reflexivity.
Qed.

End Consecutive.

Lemma ids_are_positions_run :
  forallb (fun e => negb (direct_add e)) sample_events = true
  /\ map Evidence.id
       (evidenceList (session (blank_page "complete" sample_doc) sample_events)) =
     [1; 2; 3; 4; 5].
Proof.
  split; [reflexivity|].
  exact (proj2 (ids_are_positions (blank_page "complete" sample_doc) sample_events
                  eq_refl)).
Defined.


Lemma export_filename_is_clean_run :
  export_filename "2024-01-01T10:20:30.456Z" =
  "xss-report-2024-01-01T10-20-30-456Z.json"
  /\ exists body,
       export_filename "2024-01-01T10:20:30.456Z" = "xss-report-" ++ body ++ ".json"
       /\ String.length body = 24%nat.
Proof.
  split; [reflexivity|].
  destruct (export_filename_is_clean "2024-01-01T10:20:30.456Z")
    as (body & Hname & Hlen & _).
  exists body. split; [exact Hname | exact Hlen].
Defined.
